(** * AT24CM0X serial EEPROM driver: a shallow embedding of at24cm0x.c

    The driver talks to three collaborators that are not part of its
    sources: the TWI/I2C hardware abstraction layer ([twi_start],
    [twi_stop], [twi_address], [twi_set], [twi_get]), the systick delay
    ([systick_timer_wait_ms]) and the write-protect pin ([at24cm0x_wp]).
    Every call to one of them is recorded, in program order, in a trace of
    events; what the bus answers is given by an oracle over the history of
    calls, so any deterministic bus (a mock with a script, a simulated
    chip) is an instance.

    Integer types are the ones of the AVR targets the header selects
    ([AT24CM0X_HAL_PLATFORM] is avr or avr0): [unsigned char] has 8 bits,
    [unsigned int] 16 and [unsigned long] 32.  Values are [Z] with the
    wrap-around written out. *)

From Stdlib Require Import ZArith List Bool Lia.
Import ListNotations.
Local Open Scope Z_scope.

(* ------------------------------------------------------------------ *)
(** ** C integer types *)

Definition to_uchar (x : Z) : Z := x mod 2 ^ 8.
Definition to_uint (x : Z) : Z := x mod 2 ^ 16.
Definition to_ulong (x : Z) : Z := x mod 2 ^ 32.

(* ------------------------------------------------------------------ *)
(** ** at24cm0x.h *)

Inductive AT24CM0X_WP_Mode : Type :=
| AT24CM0X_WP_Mode_Enabled
| AT24CM0X_WP_Mode_Disabled.

Inductive AT24CM0X_Status : Type :=
| AT24CM0X_Status_Done
| AT24CM0X_Status_Address_Error
| AT24CM0X_Status_Page_Error
| AT24CM0X_Status_Size_Error
| AT24CM0X_Status_Data_Error
| AT24CM0X_Status_TWI_Error
| AT24CM0X_Status_General_Error.

Definition AT24CM0X_Status_eq_dec (x y : AT24CM0X_Status) : {x = y} + {x <> y}.
Proof. decide equality. Defined.

(** The macros of the header a build fixes.  The feature macros, which the
    sources test with [#ifdef], are booleans; the sizes are the
    [unsigned long] constants of the header ([262144UL], [1024UL],
    [256UL], [10UL]). *)
Record Config : Type := mkConfig {
  AT24CM0X_MEMORY_SIZE : Z;
  AT24CM0X_PAGES : Z;
  AT24CM0X_PAGE_SIZE : Z;
  AT24CM0X_ENABLE_INTEGRITY_CHECK : bool;
  AT24CM0X_WRITE_ACKNOWLEDGE_POLLING : bool;
  AT24CM0X_BASE_ADDRESS : Z;
  AT24CM0X_ADDRESS_MASK : Z;
  AT24CM0X_ADDRESS_HIGH_MASK : Z;
  AT24CM0X_MULTI_DEVICES : bool;
  AT24CM0X_ADDRESS : Z;
  AT24CM0X_WP_CONTROL_EN : bool;
  AT24CM0X_WRITE_CYCLE_MS : Z
}.

(** What the header derives from the memory size and the strap pins when
    the build overrides none of the address macros. *)
Definition header_ADDRESS_MASK (memory_size : Z) : Z :=
  if memory_size <? 262144 then 0x06 else 0x04.

Definition header_ADDRESS_HIGH_MASK (memory_size : Z) : Z :=
  if memory_size <? 262144 then 0x01 else 0x03.

Definition header_ADDRESS (memory_size a2 a1 : Z) : Z :=
  if memory_size <? 262144
  then Z.lor (Z.lor 0x50 (Z.shiftl a2 2)) (Z.shiftl a1 1)
  else Z.lor 0x50 (Z.shiftl a2 2).

Definition header_config (memory_size pages page_size a2 a1 cycle_ms : Z)
    (integrity polling multi wp : bool) : Config :=
  {| AT24CM0X_MEMORY_SIZE := memory_size;
     AT24CM0X_PAGES := pages;
     AT24CM0X_PAGE_SIZE := page_size;
     AT24CM0X_ENABLE_INTEGRITY_CHECK := integrity;
     AT24CM0X_WRITE_ACKNOWLEDGE_POLLING := polling;
     AT24CM0X_BASE_ADDRESS := 0x50;
     AT24CM0X_ADDRESS_MASK := header_ADDRESS_MASK memory_size;
     AT24CM0X_ADDRESS_HIGH_MASK := header_ADDRESS_HIGH_MASK memory_size;
     AT24CM0X_MULTI_DEVICES := multi;
     AT24CM0X_ADDRESS := header_ADDRESS memory_size a2 a1;
     AT24CM0X_WP_CONTROL_EN := wp;
     AT24CM0X_WRITE_CYCLE_MS := cycle_ms |}.

(** The header as it stands: 2 Mbit, 1024 pages of 256 bytes, A2 tied
    high, fixed 10 ms write cycle, every optional feature off. *)
Definition default_config : Config :=
  header_config 262144 1024 256 1 1 10 false false false false.

(* ------------------------------------------------------------------ *)
(** ** The collaborators *)

(** One event per call that leaves the driver. *)
Inductive Event : Type :=
| Ev_twi_start
| Ev_twi_stop
| Ev_twi_address (address operation : Z)
| Ev_twi_set (data : Z)
| Ev_twi_get (acknowledge : Z)
| Ev_systick_timer_wait_ms (ms : Z)
| Ev_at24cm0x_wp (mode : AT24CM0X_WP_Mode).

(** Modelled from the spec: the HAL's twi.h is not part of the sources.
    The driver starts every accumulator at [TWI_None], ORs the primitives'
    results into it and tests [error != TWI_None]; the spec calls the
    outcome "any nonzero accumulated fault", so the no-error value is 0. *)
Definition TWI_None : Z := 0.

(** The remaining enumerators of twi.h the driver names, as the integer
    constants they are in C, and the bus itself: [twi_reply h] is the
    [TWI_Error] the primitive called last in history [h] returns, and
    [twi_data h] the byte a [twi_get] called last in [h] stores through
    its pointer.

    The driver uses [TWI_Ack] twice: the polling loop compares the
    [TWI_Error] of [twi_address] with it and goes round again on
    equality, so there it is the error of an address that was not
    acknowledged; the sequential read passes it to [twi_get] as the
    acknowledge policy of every byte but the last, where [TWI_NACK] is
    passed. *)
Record Hal : Type := mkHal {
  TWI_Ack : Z;
  TWI_NACK : Z;
  TWI_Write : Z;
  TWI_Read : Z;
  twi_reply : list Event -> Z;
  twi_data : list Event -> Z
}.

(* ------------------------------------------------------------------ *)
(** ** Driver state and the monad the driver runs in *)

(** The one global of at24cm0x.c, and the calls made so far. *)
Record State : Type := mkState {
  at24cm0x_device_identifier : Z;
  trace : list Event
}.

(** A computation either returns a value and a new state, or is still
    inside the acknowledge-polling loop when its fuel runs out. *)
Definition M (A : Type) : Type := State -> option (A * State).

Definition ret {A : Type} (a : A) : M A := fun s => Some (a, s).

Definition bind {A B : Type} (m : M A) (f : A -> M B) : M B :=
  fun s => match m s with
           | Some (a, s') => f a s'
           | None => None
           end.

Notation "x <- m ;; k" := (bind m (fun x => k))
  (at level 61, m at next level, right associativity).
Notation "m ;;; k" := (bind m (fun _ => k))
  (at level 61, right associativity).
Notation "' pat <- m ;; k" := (bind m (fun x => let 'pat := x in k))
  (at level 61, pat pattern, m at next level, right associativity).

Definition emit (e : Event) : M unit :=
  fun s => Some (tt, mkState (at24cm0x_device_identifier s) (trace s ++ [e])).

Definition read_device_identifier : M Z :=
  fun s => Some (at24cm0x_device_identifier s, s).

Definition write_device_identifier (v : Z) : M unit :=
  fun s => Some (tt, mkState (to_uchar v) (trace s)).

(** [when_defined flag m] is [#ifdef flag m #endif] with a build-time flag. *)
Definition when_defined (flag : bool) (m : M unit) : M unit :=
  if flag then m else ret tt.

(** [for (unsigned int i = start; i < start + n; i++) acc = body(i, acc);]
    The driver's loops run [i] from 0 below a [size] that fits
    [unsigned int], so [i++] never wraps. *)
Fixpoint for_loop {A : Type} (n : nat) (i : Z) (body : Z -> A -> M A) (acc : A)
    : M A :=
  match n with
  | O => ret acc
  | S n' => acc' <- body i acc ;; for_loop n' (i + 1) body acc'
  end.

(** [buffer[i] = v]; a store outside the buffer, undefined in C, leaves
    the model's buffer alone. *)
Fixpoint store (i : nat) (v : Z) (buffer : list Z) : list Z :=
  match buffer, i with
  | [], _ => []
  | _ :: t, O => v :: t
  | h :: t, S i' => h :: store i' v t
  end.

Definition status_is_done (st : AT24CM0X_Status) : bool :=
  if AT24CM0X_Status_eq_dec st AT24CM0X_Status_Done then true else false.

Section Driver.

Variable cfg : Config.
Variable hal : Hal.

(** *** TWI primitives, delay and write-protect pin *)

Definition twi_start : M unit := emit Ev_twi_start.

Definition twi_stop : M unit := emit Ev_twi_stop.

Definition twi_address (address operation : Z) : M Z :=
  emit (Ev_twi_address address operation) ;;;
  fun s => Some (twi_reply hal (trace s), s).

Definition twi_set (data : Z) : M Z :=
  emit (Ev_twi_set data) ;;;
  fun s => Some (twi_reply hal (trace s), s).

(** Returns the error and the byte stored through the [data] pointer. *)
Definition twi_get (acknowledge : Z) : M (Z * Z) :=
  emit (Ev_twi_get acknowledge) ;;;
  fun s => Some ((twi_reply hal (trace s), to_uchar (twi_data hal (trace s))), s).

Definition systick_timer_wait_ms (ms : Z) : M unit :=
  emit (Ev_systick_timer_wait_ms ms).

Definition at24cm0x_wp (mode : AT24CM0X_WP_Mode) : M unit :=
  emit (Ev_at24cm0x_wp mode).

(** *** at24cm0x.c *)

Definition at24cm0x_init : M unit :=
  when_defined (AT24CM0X_WP_CONTROL_EN cfg)
    (at24cm0x_wp AT24CM0X_WP_Mode_Enabled) ;;;
  if AT24CM0X_MULTI_DEVICES cfg
  then write_device_identifier (AT24CM0X_BASE_ADDRESS cfg)
  else write_device_identifier (AT24CM0X_ADDRESS cfg).

(** Only present when [AT24CM0X_MULTI_DEVICES] is defined. *)
Definition at24cm0x_device (identifier : Z) : M unit :=
  write_device_identifier
    (Z.lor (AT24CM0X_BASE_ADDRESS cfg)
           (Z.land identifier (AT24CM0X_ADDRESS_MASK cfg))).

(** The do-while loop has no bound of its own; [fuel] counts the rounds
    the model is willing to run. *)
Fixpoint at24cm0x_write_acknowledge_polling (fuel : nat) : M unit :=
  match fuel with
  | O => fun _ => None
  | S fuel' =>
      twi_start ;;;
      id <- read_device_identifier ;;
      error <- twi_address id (TWI_Write hal) ;;
      if error =? TWI_Ack hal
      then at24cm0x_write_acknowledge_polling fuel'
      else twi_stop
  end.

Definition at24cm0x_send_address (address : Z) : M Z :=
  id <- read_device_identifier ;;
  let high_byte :=
    to_uchar (Z.lor id (Z.land (AT24CM0X_ADDRESS_HIGH_MASK cfg)
                               (to_uchar (Z.shiftr address 16)))) in
  let middle_byte := to_uchar (Z.shiftr address 8) in
  let low_byte := to_uchar address in
  let error := TWI_None in
  e1 <- twi_address high_byte (TWI_Write hal) ;;
  let error := Z.lor error e1 in
  e2 <- twi_set middle_byte ;;
  let error := Z.lor error e2 in
  e3 <- twi_set low_byte ;;
  let error := Z.lor error e3 in
  ret error.

(** [if (error != TWI_None) return TWI_Error; return Done;] *)
Definition status_of_error (error : Z) : AT24CM0X_Status :=
  if negb (error =? TWI_None)
  then AT24CM0X_Status_TWI_Error
  else AT24CM0X_Status_Done.

(** The write-completion wait both write paths run after their stop. *)
Definition write_completion_wait (fuel : nat) : M unit :=
  if AT24CM0X_WRITE_ACKNOWLEDGE_POLLING cfg
  then at24cm0x_write_acknowledge_polling fuel
  else systick_timer_wait_ms (AT24CM0X_WRITE_CYCLE_MS cfg).

(** [data] is the byte behind the pointer before the call; the result
    carries the byte behind it afterwards. *)
Definition at24cm0x_read_current_byte (data : Z) : M (AT24CM0X_Status * Z) :=
  let error := TWI_None in
  twi_start ;;;
  id <- read_device_identifier ;;
  e1 <- twi_address id (TWI_Read hal) ;;
  let error := Z.lor error e1 in
  ' (e2, data) <- twi_get (TWI_NACK hal) ;;
  let error := Z.lor error e2 in
  twi_stop ;;;
  ret (status_of_error error, data).

Definition at24cm0x_read_byte (address : Z) (data : Z)
    : M (AT24CM0X_Status * Z) :=
  if address >=? AT24CM0X_MEMORY_SIZE cfg
  then ret (AT24CM0X_Status_Address_Error, data)
  else
    let status := AT24CM0X_Status_Done in
    let error := TWI_None in
    twi_start ;;;
    e1 <- at24cm0x_send_address address ;;
    let error := Z.lor error e1 in
    twi_stop ;;;
    twi_start ;;;
    id <- read_device_identifier ;;
    e2 <- twi_address id (TWI_Read hal) ;;
    let error := Z.lor error e2 in
    ' (e3, data) <- twi_get (TWI_NACK hal) ;;
    let error := Z.lor error e3 in
    twi_stop ;;;
    if negb (error =? TWI_None) || negb (status_is_done status)
    then ret (AT24CM0X_Status_TWI_Error, data)
    else ret (AT24CM0X_Status_Done, data).

(** One round of the receive loop of [at24cm0x_read_sequential]; the
    accumulator is the error flag and the caller's buffer. *)
Definition read_sequential_body (size : Z) (i : Z) (acc : Z * list Z)
    : M (Z * list Z) :=
  let '(error, data) := acc in
  let ack := if i >=? to_uint (size - 1) then TWI_NACK hal else TWI_Ack hal in
  ' (e, b) <- twi_get ack ;;
  ret (Z.lor error e, store (Z.to_nat i) b data).

(** [data] is the caller's buffer before the call; the result carries it
    as the call leaves it. *)
Definition at24cm0x_read_sequential (address : Z) (data : list Z) (size : Z)
    : M (AT24CM0X_Status * list Z) :=
  if address >=? AT24CM0X_MEMORY_SIZE cfg
  then ret (AT24CM0X_Status_Address_Error, data)
  else if size =? 0
  then ret (AT24CM0X_Status_Size_Error, data)
  else
    let status := AT24CM0X_Status_Done in
    let error := TWI_None in
    twi_start ;;;
    e1 <- at24cm0x_send_address address ;;
    let error := Z.lor error e1 in
    twi_stop ;;;
    twi_start ;;;
    id <- read_device_identifier ;;
    e2 <- twi_address id (TWI_Read hal) ;;
    let error := Z.lor error e2 in
    ' (error, data) <-
        for_loop (Z.to_nat size) 0 (read_sequential_body size) (error, data) ;;
    twi_stop ;;;
    if negb (error =? TWI_None) || negb (status_is_done status)
    then ret (AT24CM0X_Status_TWI_Error, data)
    else ret (AT24CM0X_Status_Done, data).

(** Lines 113 to 130 of [at24cm0x_write_byte]: write-protect off, the
    bus transaction, the write-completion wait, write-protect on.  The
    result is the accumulated [error]. *)
Definition write_byte_transaction (fuel : nat) (address data : Z) : M Z :=
  let error := TWI_None in
  when_defined (AT24CM0X_WP_CONTROL_EN cfg)
    (at24cm0x_wp AT24CM0X_WP_Mode_Disabled) ;;;
  twi_start ;;;
  e1 <- at24cm0x_send_address address ;;
  let error := Z.lor error e1 in
  e2 <- twi_set data ;;
  let error := Z.lor error e2 in
  twi_stop ;;;
  write_completion_wait fuel ;;;
  when_defined (AT24CM0X_WP_CONTROL_EN cfg)
    (at24cm0x_wp AT24CM0X_WP_Mode_Enabled) ;;;
  ret error.

(** Lines 137 to 149: the read-back of the integrity check, on a
    temporary that starts at 0. *)
Definition write_byte_verify (address data : Z) : M AT24CM0X_Status :=
  let temp := 0 in
  ' (st, temp) <- at24cm0x_read_byte address temp ;;
  if negb (status_is_done st)
  then ret AT24CM0X_Status_TWI_Error
  else if negb (data =? temp)
  then ret AT24CM0X_Status_Data_Error
  else ret AT24CM0X_Status_Done.

Definition at24cm0x_write_byte (fuel : nat) (address data : Z)
    : M AT24CM0X_Status :=
  if address >=? AT24CM0X_MEMORY_SIZE cfg
  then ret AT24CM0X_Status_Address_Error
  else
    error <- write_byte_transaction fuel address data ;;
    if negb (error =? TWI_None)
    then ret AT24CM0X_Status_TWI_Error
    else if AT24CM0X_ENABLE_INTEGRITY_CHECK cfg
    then write_byte_verify address data
    else ret AT24CM0X_Status_Done.

(** One round of the transmit loop of [at24cm0x_write_page]:
    [error |= twi_set( *(data + i))]. *)
Definition write_page_body (data : list Z) (i : Z) (error : Z) : M Z :=
  e <- twi_set (nth (Z.to_nat i) data 0) ;;
  ret (Z.lor error e).

(** Lines 188 to 209 of [at24cm0x_write_page].  The result of
    [at24cm0x_send_address] is not assigned to anything. *)
Definition write_page_transaction (fuel : nat) (address : Z) (data : list Z)
    (size : Z) : M Z :=
  let error := TWI_None in
  when_defined (AT24CM0X_WP_CONTROL_EN cfg)
    (at24cm0x_wp AT24CM0X_WP_Mode_Disabled) ;;;
  twi_start ;;;
  at24cm0x_send_address address ;;;
  error <- for_loop (Z.to_nat size) 0 (write_page_body data) error ;;
  twi_stop ;;;
  write_completion_wait fuel ;;;
  when_defined (AT24CM0X_WP_CONTROL_EN cfg)
    (at24cm0x_wp AT24CM0X_WP_Mode_Enabled) ;;;
  ret error.

(** The comparison loop of the page integrity check: [true] when some
    [buffer[i] != data[i]] with [i] in [start, start + n). *)
Fixpoint page_mismatch (n : nat) (i : Z) (buffer data : list Z) : bool :=
  match n with
  | O => false
  | S n' =>
      if negb (nth (Z.to_nat i) buffer 0 =? nth (Z.to_nat i) data 0)
      then true
      else page_mismatch n' (i + 1) buffer data
  end.

(** Lines 211 to 226: [Some st] is an early return with [st], [None]
    falls through to the test of [error] that ends the function.  The
    local [buffer] is uninitialised in C; the model starts it at zeros. *)
Definition write_page_verify (address : Z) (data : list Z) (size : Z)
    : M (option AT24CM0X_Status) :=
  let buffer := repeat 0 (Z.to_nat (AT24CM0X_PAGE_SIZE cfg)) in
  ' (st, buffer) <- at24cm0x_read_sequential address buffer size ;;
  if negb (status_is_done st)
  then ret (Some AT24CM0X_Status_TWI_Error)
  else if page_mismatch (Z.to_nat size) 0 buffer data
  then ret (Some AT24CM0X_Status_Data_Error)
  else ret None.

Definition at24cm0x_write_page (fuel : nat) (page : Z) (data : list Z)
    (size : Z) : M AT24CM0X_Status :=
  if page >=? AT24CM0X_PAGES cfg
  then ret AT24CM0X_Status_Page_Error
  else if (size =? 0) || (size >=? AT24CM0X_PAGE_SIZE cfg)
  then ret AT24CM0X_Status_Size_Error
  else
    let address := to_ulong (page * AT24CM0X_PAGE_SIZE cfg) in
    error <- write_page_transaction fuel address data size ;;
    early <- (if AT24CM0X_ENABLE_INTEGRITY_CHECK cfg
              then write_page_verify address data size
              else ret None) ;;
    match early with
    | Some st => ret st
    | None => ret (status_of_error error)
    end.

End Driver.

(** Which calls go to the write-protect pin, and which do not. *)
Definition is_wp_event (e : Event) : bool :=
  match e with
  | Ev_at24cm0x_wp _ => true
  | _ => false
  end.

Definition not_wp (e : Event) : Prop := is_wp_event e = false.

Definition any_event (_ : Event) : Prop := True.

(** [emits_only phi m]: whenever [m] returns, it has left the device
    identifier alone and has only added events satisfying [phi]. *)
Definition emits_only {A : Type} (phi : Event -> Prop) (m : M A) : Prop :=
  forall s a s',
    m s = Some (a, s') ->
    exists evs,
      s' = mkState (at24cm0x_device_identifier s) (trace s ++ evs)
      /\ Forall phi evs.

(** [emits_closing m]: whenever [m] returns, what it added ends with the
    one call that re-asserts write protection. *)
Definition emits_closing {A : Type} (m : M A) : Prop :=
  forall s a s',
    m s = Some (a, s') ->
    exists bus,
      s' = mkState (at24cm0x_device_identifier s)
             (trace s ++ bus ++ [Ev_at24cm0x_wp AT24CM0X_WP_Mode_Enabled])
      /\ Forall not_wp bus.

(** What a write entry point has added to the trace [old] when it
    returns with trace [new] after de-asserting write protection: the
    call that de-asserts it, bus work during which the pin is not
    touched, the call that re-asserts it, and then at most the read-back
    of the integrity check, which does not touch the pin either. *)
Definition wp_released_then_locked (old new : list Event) : Prop :=
  exists bus readback,
    new = old
          ++ Ev_at24cm0x_wp AT24CM0X_WP_Mode_Disabled :: bus
          ++ Ev_at24cm0x_wp AT24CM0X_WP_Mode_Enabled :: readback
    /\ Forall not_wp bus
    /\ Forall not_wp readback.

(** The level the write-protect pin was last driven to, [level] if the
    trace never drives it. *)
Fixpoint wp_pin (level : AT24CM0X_WP_Mode) (evs : list Event)
    : AT24CM0X_WP_Mode :=
  match evs with
  | [] => level
  | Ev_at24cm0x_wp mode :: evs' => wp_pin mode evs'
  | _ :: evs' => wp_pin level evs'
  end.

(** A write entry point that returned in state [s'] from state [s]
    either called nothing at all (it refused its input) or bracketed its
    bus work as above; and a pin that was at [Enabled] is at [Enabled]. *)
Definition leaves_locked (s s' : State) : Prop :=
  (s' = s \/ wp_released_then_locked (trace s) (trace s'))
  /\ forall level,
       wp_pin level (trace s) = AT24CM0X_WP_Mode_Enabled ->
       wp_pin level (trace s') = AT24CM0X_WP_Mode_Enabled.

(** [m] never assigns the device identifier. *)
Definition keeps_identifier {A : Type} (m : M A) : Prop :=
  forall s r s',
    m s = Some (r, s') ->
    at24cm0x_device_identifier s' = at24cm0x_device_identifier s.

(** The bits of the stored identifier under [AT24CM0X_ADDRESS_HIGH_MASK]
    are zero. *)
Definition high_bits_clear (cfg : Config) (s : State) : Prop :=
  Z.land (at24cm0x_device_identifier s) (AT24CM0X_ADDRESS_HIGH_MASK cfg) = 0.

(** [m] returns from every state. *)
Definition returns {A : Type} (m : M A) : Prop :=
  forall s, exists r, m s = Some r.

(** The receive calls a sequential read of [size] bytes makes: the
    acknowledge policy of round [i], for [n] rounds from [i] on. *)
Fixpoint get_events (hal : Hal) (size : Z) (n : nat) (i : Z) : list Event :=
  match n with
  | O => []
  | S n' =>
      Ev_twi_get (if i >=? to_uint (size - 1) then TWI_NACK hal else TWI_Ack hal)
      :: get_events hal size n' (i + 1)
  end.

(** [k] rounds of the polling loop as the bus sees them. *)
Fixpoint polling_rounds (hal : Hal) (id : Z) (k : nat) : list Event :=
  match k with
  | O => []
  | S k' => Ev_twi_start :: Ev_twi_address id (TWI_Write hal)
            :: polling_rounds hal id k'
  end.

(** The three calls of the address phase, with the bytes as
    [at24cm0x_send_address] computes them from identifier [id]. *)
Definition send_address_events (cfg : Config) (hal : Hal) (id address : Z)
    : list Event :=
  [Ev_twi_address
     (to_uchar (Z.lor id (Z.land (AT24CM0X_ADDRESS_HIGH_MASK cfg)
                                 (to_uchar (Z.shiftr address 16)))))
     (TWI_Write hal);
   Ev_twi_set (to_uchar (Z.shiftr address 8));
   Ev_twi_set (to_uchar address)].

(* ------------------------------------------------------------------ *)
(** ** What the bus answered *)

(** The calls that return a [TWI_Error]. *)
Definition returns_error (e : Event) : bool :=
  match e with
  | Ev_twi_address _ _ | Ev_twi_set _ | Ev_twi_get _ => true
  | _ => false
  end.

(** The errors the bus returned to the calls [evs] made after history
    [h], in order. *)
Fixpoint replies (hal : Hal) (h evs : list Event) : list Z :=
  match evs with
  | [] => []
  | e :: evs' =>
      if returns_error e
      then twi_reply hal (h ++ [e]) :: replies hal (h ++ [e]) evs'
      else replies hal (h ++ [e]) evs'
  end.

(** Every call among [evs] returned [TWI_None]. *)
Definition no_bus_error (hal : Hal) (h evs : list Event) : Prop :=
  Forall (fun r => r = TWI_None) (replies hal h evs).

(** The bytes the receive calls among [evs] stored, in order. *)
Fixpoint received (hal : Hal) (h evs : list Event) : list Z :=
  match evs with
  | [] => []
  | Ev_twi_get ack :: evs' =>
      to_uchar (twi_data hal (h ++ [Ev_twi_get ack]))
      :: received hal (h ++ [Ev_twi_get ack]) evs'
  | e :: evs' => received hal (h ++ [e]) evs'
  end.

(** The transmit calls of the page loop: rounds [i], [i + 1], ... of [n]. *)
Fixpoint set_events (data : list Z) (n : nat) (i : Z) : list Event :=
  match n with
  | O => []
  | S n' => Ev_twi_set (nth (Z.to_nat i) data 0) :: set_events data n' (i + 1)
  end.

(** The call to the write-protect pin a build makes, if it makes one. *)
Definition wp_events (cfg : Config) (mode : AT24CM0X_WP_Mode) : list Event :=
  if AT24CM0X_WP_CONTROL_EN cfg then [Ev_at24cm0x_wp mode] else [].

(** The memory address a chip reads off the three bytes of an address
    phase: the bits of the device-select byte under the high mask, then
    the two word-address bytes. *)
Definition decode_address (cfg : Config) (evs : list Event) : option Z :=
  match evs with
  | [Ev_twi_address high _; Ev_twi_set middle; Ev_twi_set low] =>
      Some (Z.shiftl (Z.land high (AT24CM0X_ADDRESS_HIGH_MASK cfg)) 16
            + Z.shiftl middle 8 + low)
  | _ => None
  end.

(* ------------------------------------------------------------------ *)
(** ** Test benches *)

(** A numbering of the enumerators of twi.h and a bus on which the call
    numbered [faulty] (every call counts, the first is 1) returns [err],
    every other call returns [TWI_None], and every receive delivers
    [byte]. *)
Definition bench_hal (faulty : nat) (err byte : Z) : Hal :=
  {| TWI_Ack := 3;
     TWI_NACK := 1;
     TWI_Write := 0;
     TWI_Read := 1;
     twi_reply := fun h => if Nat.eqb (length h) faulty then err else TWI_None;
     twi_data := fun _ => byte |}.

(** A bus whose chip is busy: the first [busy] calls return [TWI_Ack],
    the later ones [TWI_None]. *)
Definition busy_hal (busy : nat) : Hal :=
  {| TWI_Ack := 3;
     TWI_NACK := 1;
     TWI_Write := 0;
     TWI_Read := 1;
     twi_reply := fun h => if Nat.leb (length h) busy then 3 else TWI_None;
     twi_data := fun _ => 0 |}.

(** The default header with the integrity check, and with write-protect
    control, compiled in. *)
Definition integrity_config : Config :=
  header_config 262144 1024 256 1 1 10 true false false false.

Definition wp_config : Config :=
  header_config 262144 1024 256 1 1 10 true false false true.

(** A bus without faults whose receive number [k] (counting every call)
    delivers [k]. *)
Definition counting_hal : Hal :=
  {| TWI_Ack := 3;
     TWI_NACK := 1;
     TWI_Write := 0;
     TWI_Read := 1;
     twi_reply := fun _ => TWI_None;
     twi_data := fun h => Z.of_nat (length h) |}.

(** A chip that never acknowledges. *)
Definition dead_hal : Hal :=
  {| TWI_Ack := 3;
     TWI_NACK := 1;
     TWI_Write := 0;
     TWI_Read := 1;
     twi_reply := fun _ => 3;
     twi_data := fun _ => 0 |}.

(** The default header with acknowledge polling. *)
Definition polling_config : Config :=
  header_config 262144 1024 256 1 1 10 false true false false.

(** The state [at24cm0x_init] leaves on the default header. *)
Definition bench_state : State := mkState 0x54 [].

(* ------------------------------------------------------------------ *)
(** ** The monad *)

Lemma bind_Some_inv {A B : Type} (m : M A) (f : A -> M B) (s : State)
    (r : B * State) :
  bind m f s = Some r ->
  exists a s1, m s = Some (a, s1) /\ f a s1 = Some r.
Proof.
  unfold bind. destruct (m s) as [[a s1]|]; [|discriminate].
  intros H. now exists a, s1.
Qed.

Lemma bind_run {A B : Type} (m : M A) (f : A -> M B) (s : State)
    (a : A) (s1 : State) :
  m s = Some (a, s1) -> bind m f s = f a s1.
Proof. intros H. unfold bind. now rewrite H. Qed.

Lemma bind_run_ex {A B : Type} (m : M A) (f : A -> M B) (s : State)
    (a : A) (s1 s' : State) :
  m s = Some (a, s1) ->
  (exists r, f a s1 = Some (r, s')) ->
  exists r, bind m f s = Some (r, s').
Proof. intros H [r Hr]. exists r. now rewrite (bind_run _ _ _ _ _ H). Qed.

Lemma state_eta (s : State) :
  mkState (at24cm0x_device_identifier s) (trace s) = s.
Proof. now destruct s. Qed.

Create HintDb emits.

Section EmitsOnly.

Variable phi : Event -> Prop.

Lemma emits_only_ret {A : Type} (a : A) : emits_only phi (ret a).
Proof.
  intros s a' s' H. injection H as <- <-. exists [].
  rewrite app_nil_r, state_eta. auto.
Qed.

Lemma emits_only_emit (e : Event) : phi e -> emits_only phi (emit e).
Proof.
  intros He s a s' H. injection H as <- <-. exists [e]. auto.
Qed.

Lemma emits_only_bind {A B : Type} (m : M A) (f : A -> M B) :
  emits_only phi m -> (forall a, emits_only phi (f a)) ->
  emits_only phi (bind m f).
Proof.
  intros Hm Hf s b s' H.
  apply bind_Some_inv in H as (a & s1 & H1 & H2).
  apply Hm in H1 as (e1 & -> & F1).
  apply Hf in H2 as (e2 & -> & F2). simpl.
  exists (e1 ++ e2). rewrite app_assoc. split; [reflexivity|].
  apply Forall_app; auto.
Qed.

Lemma emits_only_for_loop {A : Type} (body : Z -> A -> M A) :
  (forall i acc, emits_only phi (body i acc)) ->
  forall n i acc, emits_only phi (for_loop n i body acc).
Proof.
  intros Hbody n. induction n as [|n IH]; intros i acc; simpl.
  - apply emits_only_ret.
  - apply emits_only_bind; auto.
Qed.

Lemma emits_only_when_defined (flag : bool) (m : M unit) :
  emits_only phi m -> emits_only phi (when_defined flag m).
Proof. destruct flag; simpl; auto. intros _. apply emits_only_ret. Qed.

Lemma emits_only_read_device_identifier :
  emits_only phi read_device_identifier.
Proof.
  intros s a s' H. injection H as <- <-. exists [].
  rewrite app_nil_r, state_eta. auto.
Qed.

Lemma emits_only_pure {A : Type} (e : Event) (g : State -> A) :
  phi e -> emits_only phi (emit e ;;; fun s => Some (g s, s)).
Proof.
  intros He s a s' H. unfold bind, emit in H. simpl in H.
  injection H as <- <-. exists [e]. auto.
Qed.

Variable cfg : Config.
Variable hal : Hal.
Hypothesis phi_bus : forall e, not_wp e -> phi e.

Lemma emits_only_twi_start : emits_only phi twi_start.
Proof. apply emits_only_emit, phi_bus; reflexivity. Qed.

Lemma emits_only_twi_stop : emits_only phi twi_stop.
Proof. apply emits_only_emit, phi_bus; reflexivity. Qed.

Lemma emits_only_twi_address (a op : Z) : emits_only phi (twi_address hal a op).
Proof. apply emits_only_pure, phi_bus; reflexivity. Qed.

Lemma emits_only_twi_set (d : Z) : emits_only phi (twi_set hal d).
Proof. apply emits_only_pure, phi_bus; reflexivity. Qed.

Lemma emits_only_twi_get (ack : Z) : emits_only phi (twi_get hal ack).
Proof. apply emits_only_pure, phi_bus; reflexivity. Qed.

Lemma emits_only_wait (ms : Z) : emits_only phi (systick_timer_wait_ms ms).
Proof. apply emits_only_emit, phi_bus; reflexivity. Qed.

#[local] Hint Resolve emits_only_twi_start emits_only_twi_stop emits_only_twi_address
  emits_only_twi_set emits_only_twi_get emits_only_wait
  emits_only_read_device_identifier : emits.

Ltac emits_steps :=
  repeat first
    [ apply emits_only_ret
    | solve [auto with emits]
    | apply emits_only_for_loop; intros
    | apply emits_only_bind; [|intros]
    | match goal with
      | |- emits_only _ (let '(_, _) := ?p in _) => destruct p
      | |- emits_only _ (if ?c then _ else _) => destruct c
      | |- emits_only _ (match ?c with Some _ => _ | None => _ end) =>
          destruct c
      end ].

Lemma emits_only_send_address (a : Z) :
  emits_only phi (at24cm0x_send_address cfg hal a).
Proof. unfold at24cm0x_send_address. emits_steps. Qed.

Lemma emits_only_polling (fuel : nat) :
  emits_only phi (at24cm0x_write_acknowledge_polling hal fuel).
Proof.
  induction fuel as [|fuel IH]; simpl.
  - intros s a s' H; discriminate.
  - emits_steps.
Qed.

Lemma emits_only_write_completion_wait (fuel : nat) :
  emits_only phi (write_completion_wait cfg hal fuel).
Proof.
  unfold write_completion_wait.
  destruct (AT24CM0X_WRITE_ACKNOWLEDGE_POLLING cfg);
    auto using emits_only_polling, emits_only_wait.
Qed.

#[local] Hint Resolve emits_only_send_address emits_only_write_completion_wait : emits.

Lemma emits_only_read_current_byte (data : Z) :
  emits_only phi (at24cm0x_read_current_byte hal data).
Proof. unfold at24cm0x_read_current_byte. emits_steps. Qed.

Lemma emits_only_read_byte (a data : Z) :
  emits_only phi (at24cm0x_read_byte cfg hal a data).
Proof. unfold at24cm0x_read_byte. emits_steps. Qed.

Lemma emits_only_read_sequential (a : Z) (data : list Z) (size : Z) :
  emits_only phi (at24cm0x_read_sequential cfg hal a data size).
Proof.
  unfold at24cm0x_read_sequential, read_sequential_body. emits_steps.
Qed.

#[local] Hint Resolve emits_only_read_byte emits_only_read_sequential : emits.

Lemma emits_only_write_byte_verify (a d : Z) :
  emits_only phi (write_byte_verify cfg hal a d).
Proof. unfold write_byte_verify. emits_steps. Qed.

Lemma emits_only_write_page_verify (a : Z) (data : list Z) (size : Z) :
  emits_only phi (write_page_verify cfg hal a data size).
Proof. unfold write_page_verify. emits_steps. Qed.

#[local] Hint Resolve emits_only_write_byte_verify emits_only_write_page_verify : emits.

Hypothesis phi_wp : forall mode, phi (Ev_at24cm0x_wp mode).

Lemma emits_only_wp (mode : AT24CM0X_WP_Mode) :
  emits_only phi (at24cm0x_wp mode).
Proof. apply emits_only_emit, phi_wp. Qed.

#[local] Hint Resolve emits_only_wp emits_only_when_defined : emits.

Lemma emits_only_write_byte (fuel : nat) (a d : Z) :
  emits_only phi (at24cm0x_write_byte cfg hal fuel a d).
Proof.
  unfold at24cm0x_write_byte, write_byte_transaction. emits_steps.
Qed.

Lemma emits_only_write_page (fuel : nat) (p : Z) (data : list Z) (size : Z) :
  emits_only phi (at24cm0x_write_page cfg hal fuel p data size).
Proof.
  unfold at24cm0x_write_page, write_page_transaction, write_page_body.
  emits_steps.
Qed.

End EmitsOnly.

(* ------------------------------------------------------------------ *)
(** ** Address encoding *)

Lemma to_uchar_land (x : Z) : to_uchar x = Z.land x 0xFF.
Proof.
  unfold to_uchar. change 0xFF with (Z.ones 8).
  now rewrite Z.land_ones by lia.
Qed.

Lemma land_byte_id (x : Z) : 0 <= x < 256 -> Z.land x 0xFF = x.
Proof.
  intros H. rewrite <- to_uchar_land. unfold to_uchar.
  apply Z.mod_small. change (2 ^ 8) with 256. lia.
Qed.

Lemma high_byte_exact (id mask hi : Z) :
  0 <= id < 256 -> 0 <= mask < 256 ->
  to_uchar (Z.lor id (Z.land mask (to_uchar hi)))
  = Z.lor id (Z.land hi mask).
Proof.
  intros Hid Hmask.
  rewrite !to_uchar_land.
  rewrite Z.land_lor_distr_l, (land_byte_id id Hid).
  f_equal.
  rewrite (Z.land_comm hi 0xFF), Z.land_assoc, (land_byte_id mask Hmask).
  rewrite <- Z.land_assoc, (Z.land_comm hi 0xFF), Z.land_assoc.
  rewrite (land_byte_id mask Hmask). apply Z.land_comm.
Qed.

(** C1.  The three-byte address phase of [at24cm0x_send_address], which
    every write and read operation runs on the address it was passed:
    it calls, in this order and nothing else, [twi_address] in write
    direction with [device_identifier | ((a >> 16) & ADDRESS_HIGH_MASK)],
    [twi_set] with [(a >> 8) & 0xFF] and [twi_set] with [a & 0xFF]; the
    stored device identifier is left as it was. *)
Theorem send_address_three_bytes (cfg : Config) (hal : Hal) (a : Z) (s : State) :
  0 <= at24cm0x_device_identifier s < 256 ->
  0 <= AT24CM0X_ADDRESS_HIGH_MASK cfg < 256 ->
  exists error,
    at24cm0x_send_address cfg hal a s =
    Some (error,
          mkState (at24cm0x_device_identifier s)
            (trace s ++
             [Ev_twi_address
                (Z.lor (at24cm0x_device_identifier s)
                       (Z.land (Z.shiftr a 16) (AT24CM0X_ADDRESS_HIGH_MASK cfg)))
                (TWI_Write hal);
              Ev_twi_set (Z.land (Z.shiftr a 8) 0xFF);
              Ev_twi_set (Z.land a 0xFF)])).
Proof.
  intros Hid Hmask.
  unfold at24cm0x_send_address, bind, read_device_identifier, twi_address,
    twi_set, emit, ret; simpl.
  rewrite (high_byte_exact _ _ _ Hid Hmask), !to_uchar_land.
  rewrite <- !app_assoc; simpl.
  eexists; reflexivity.
Qed.

Lemma send_address_three_bytes_witness :
  exists error,
    at24cm0x_send_address default_config (bench_hal 0 0 0) 0x1A2B3 bench_state =
    Some (error,
          mkState 0x54
            [Ev_twi_address 0x55 0; Ev_twi_set 0xA2; Ev_twi_set 0xB3]).
Proof.
  apply (send_address_three_bytes default_config (bench_hal 0 0 0) 0x1A2B3
           bench_state).
  - simpl; lia.
  - vm_compute; split; [discriminate | reflexivity].
Defined.

(* ------------------------------------------------------------------ *)
(** ** Sequential read *)

Lemma send_address_run (cfg : Config) (hal : Hal) (a : Z) (s : State) :
  exists error,
    at24cm0x_send_address cfg hal a s =
    Some (error,
          mkState (at24cm0x_device_identifier s)
            (trace s ++ send_address_events cfg hal
                          (at24cm0x_device_identifier s) a)).
Proof.
  unfold at24cm0x_send_address, bind, read_device_identifier, twi_address,
    twi_set, emit, ret; simpl.
  rewrite <- !app_assoc; simpl.
  eexists; reflexivity.
Qed.

Lemma read_loop_run (hal : Hal) (size : Z) (n : nat) :
  forall i acc s,
  exists r,
    for_loop n i (read_sequential_body hal size) acc s =
    Some (r, mkState (at24cm0x_device_identifier s)
               (trace s ++ get_events hal size n i)).
Proof.
  induction n as [|n IH]; intros i [error data] s; simpl.
  - exists (error, data). unfold ret. now rewrite app_nil_r, state_eta.
  - rewrite (bind_run (read_sequential_body hal size i (error, data)) _ s
               _ _ eq_refl).
    match goal with
    | |- context [for_loop n (i + 1) _ ?acc' ?s'] =>
        destruct (IH (i + 1) acc' s') as [r Hr]
    end.
    exists r. rewrite Hr. simpl. now rewrite <- app_assoc.
Qed.

Lemma to_uint_small (x : Z) : 0 <= x < 2 ^ 16 -> to_uint x = x.
Proof. intros H. unfold to_uint. now apply Z.mod_small. Qed.

Lemma get_events_policy (hal : Hal) (size : Z) (k : nat) :
  forall i,
  0 <= i -> size < 2 ^ 16 -> i + Z.of_nat (S k) = size ->
  get_events hal size (S k) i =
  repeat (Ev_twi_get (TWI_Ack hal)) k ++ [Ev_twi_get (TWI_NACK hal)].
Proof.
  induction k as [|k IH]; intros i Hi Hsize Hsum.
  - simpl. rewrite to_uint_small by lia.
    replace (i >=? size - 1) with true by (symmetry; apply Z.geb_le; lia).
    reflexivity.
  - change (get_events hal size (S (S k)) i) with
      (Ev_twi_get (if i >=? to_uint (size - 1)
                   then TWI_NACK hal else TWI_Ack hal)
       :: get_events hal size (S k) (i + 1)).
    rewrite to_uint_small by lia.
    replace (i >=? size - 1) with false
      by (symmetry; rewrite Z.geb_leb; apply Z.leb_gt; lia).
    rewrite IH by lia. reflexivity.
Qed.

(** C2.  For a valid address [a] and a size [0 < n] (an [unsigned int]),
    [at24cm0x_read_sequential] returns, and the calls it has made are, in
    order: the positioning phase (start, the three address bytes, stop),
    start, the device addressed in read direction, then exactly [n]
    receive calls of which the first [n - 1] pass the acknowledge policy
    [TWI_Ack] and the last passes [TWI_NACK], then stop. *)
Theorem read_sequential_ack_then_nack (cfg : Config) (hal : Hal)
    (a : Z) (data : list Z) (n : Z) (s : State) :
  a < AT24CM0X_MEMORY_SIZE cfg ->
  0 < n < 2 ^ 16 ->
  exists st buffer,
    at24cm0x_read_sequential cfg hal a data n s =
    Some ((st, buffer),
          mkState (at24cm0x_device_identifier s)
            (trace s
             ++ [Ev_twi_start]
             ++ send_address_events cfg hal (at24cm0x_device_identifier s) a
             ++ [Ev_twi_stop; Ev_twi_start;
                 Ev_twi_address (at24cm0x_device_identifier s) (TWI_Read hal)]
             ++ repeat (Ev_twi_get (TWI_Ack hal)) (Z.to_nat (n - 1))
             ++ [Ev_twi_get (TWI_NACK hal); Ev_twi_stop])).
Proof.
  intros Ha Hn.
  unfold at24cm0x_read_sequential.
  replace (a >=? AT24CM0X_MEMORY_SIZE cfg) with false
    by (symmetry; rewrite Z.geb_leb; apply Z.leb_gt; lia).
  replace (n =? 0) with false by (symmetry; apply Z.eqb_neq; lia).
  cbv zeta.
  match goal with
  | |- exists st buffer, ?m s = Some ((st, buffer), ?s') =>
      enough (exists r, m s = Some (r, s')) as [[st buffer] H]
        by (exists st, buffer; exact H)
  end.
  eapply bind_run_ex; [reflexivity|].
  match goal with
  | |- context [bind (at24cm0x_send_address cfg hal a) _ ?s1] =>
      destruct (send_address_run cfg hal a s1) as [e1 He1]
  end.
  eapply bind_run_ex; [exact He1|].
  do 4 (eapply bind_run_ex; [reflexivity|]).
  match goal with
  | |- context [bind (for_loop ?k 0 _ ?acc) _ ?s1] =>
      destruct (read_loop_run hal n k 0 acc s1) as [[error buffer] Hr]
  end.
  eapply bind_run_ex; [exact Hr|].
  eapply bind_run_ex; [reflexivity|].
  simpl.
  replace (Z.to_nat n) with (S (Z.to_nat (n - 1))) by lia.
  rewrite get_events_policy by lia.
  destruct (negb (error =? TWI_None)); simpl;
    unfold ret; eexists; repeat (rewrite <- app_assoc; simpl);
    reflexivity.
Qed.

Lemma read_sequential_ack_then_nack_witness :
  exists st buffer,
    at24cm0x_read_sequential default_config (bench_hal 0 0 0xA5) 0x100
      [0; 0; 0; 0] 4 bench_state =
    Some ((st, buffer),
          mkState 0x54
            ([Ev_twi_start; Ev_twi_address 0x54 0; Ev_twi_set 1; Ev_twi_set 0;
              Ev_twi_stop; Ev_twi_start; Ev_twi_address 0x54 1;
              Ev_twi_get 3; Ev_twi_get 3; Ev_twi_get 3; Ev_twi_get 1;
              Ev_twi_stop])).
Proof.
  apply (read_sequential_ack_then_nack default_config (bench_hal 0 0 0xA5)
           0x100 [0; 0; 0; 0] 4 bench_state).
  - vm_compute; reflexivity.
  - lia.
Defined.

(* ------------------------------------------------------------------ *)
(** ** Acknowledge polling *)

Lemma polling_round (hal : Hal) (fuel : nat) (s : State) :
  at24cm0x_write_acknowledge_polling hal (S fuel) s =
  if twi_reply hal
       (trace s ++ [Ev_twi_start;
                    Ev_twi_address (at24cm0x_device_identifier s)
                      (TWI_Write hal)])
     =? TWI_Ack hal
  then at24cm0x_write_acknowledge_polling hal fuel
         (mkState (at24cm0x_device_identifier s)
            (trace s ++ [Ev_twi_start;
                         Ev_twi_address (at24cm0x_device_identifier s)
                           (TWI_Write hal)]))
  else Some (tt,
             mkState (at24cm0x_device_identifier s)
               (trace s ++ [Ev_twi_start;
                            Ev_twi_address (at24cm0x_device_identifier s)
                              (TWI_Write hal);
                            Ev_twi_stop])).
Proof.
  simpl at24cm0x_write_acknowledge_polling.
  unfold bind, twi_start, read_device_identifier, twi_address, twi_stop, emit.
  simpl. rewrite <- !app_assoc. simpl.
  match goal with |- context [if ?c then _ else _] => destruct c end;
    simpl; rewrite <- ?app_assoc; reflexivity.
Qed.

(** C4.  The write-completion wait of a build with acknowledge polling.
    The bus answers the address call of a round either with the
    acknowledge error [TWI_Ack] (the chip did not acknowledge: NACK) or
    without error, [TWI_None] (the chip acknowledged: ACK).  If the first
    [k] rounds are answered NACK and round [k + 1] is answered ACK, the
    loop returns after exactly [k + 1] rounds, each a start followed by
    the device addressed in write direction, and then one stop; any fuel
    above [k] is enough. *)
Theorem acknowledge_polling_until_ack (hal : Hal) (k : nat) :
  forall (fuel : nat) (s : State),
  TWI_Ack hal <> TWI_None ->
  (k < fuel)%nat ->
  (forall j, (j < k)%nat ->
     twi_reply hal
       (trace s ++ polling_rounds hal (at24cm0x_device_identifier s) (S j))
     = TWI_Ack hal) ->
  twi_reply hal
    (trace s ++ polling_rounds hal (at24cm0x_device_identifier s) (S k))
  = TWI_None ->
  at24cm0x_write_acknowledge_polling hal fuel s =
  Some (tt,
        mkState (at24cm0x_device_identifier s)
          (trace s
           ++ polling_rounds hal (at24cm0x_device_identifier s) (S k)
           ++ [Ev_twi_stop])).
Proof.
  induction k as [|k IH]; intros fuel s Hcode Hfuel Hbusy Hready;
    (destruct fuel as [|fuel]; [lia|]); rewrite polling_round.
  - simpl in Hready. rewrite Hready.
    replace (TWI_None =? TWI_Ack hal) with false
      by (symmetry; apply Z.eqb_neq; congruence).
    reflexivity.
  - pose proof (Hbusy O ltac:(lia)) as H0. simpl in H0. rewrite H0.
    rewrite Z.eqb_refl.
    rewrite IH; simpl; try assumption; try lia.
    + now rewrite <- app_assoc.
    + intros j Hj. rewrite <- app_assoc. apply (Hbusy (S j)). lia.
    + rewrite <- app_assoc. exact Hready.
Qed.

Lemma acknowledge_polling_until_ack_witness :
  at24cm0x_write_acknowledge_polling (busy_hal 4) 3 bench_state =
  Some (tt,
        mkState 0x54
          [Ev_twi_start; Ev_twi_address 0x54 0;
           Ev_twi_start; Ev_twi_address 0x54 0;
           Ev_twi_start; Ev_twi_address 0x54 0;
           Ev_twi_stop]).
Proof.
  apply (acknowledge_polling_until_ack (busy_hal 4) 2 3 bench_state).
  - vm_compute; discriminate.
  - lia.
  - intros j Hj.
    destruct j as [|[|j]]; [reflexivity | reflexivity | lia].
  - reflexivity.
Defined.

Lemma write_completion_wait_polling (cfg : Config) (hal : Hal) (fuel : nat) :
  AT24CM0X_WRITE_ACKNOWLEDGE_POLLING cfg = true ->
  write_completion_wait cfg hal fuel
  = at24cm0x_write_acknowledge_polling hal fuel.
Proof. intros H. unfold write_completion_wait. now rewrite H. Qed.

(** The other half: while every round is answered NACK the loop goes on;
    no amount of fuel makes it return. *)
Lemma acknowledge_polling_keeps_polling (hal : Hal) (fuel : nat) :
  forall s : State,
  (forall j, (j < fuel)%nat ->
     twi_reply hal
       (trace s ++ polling_rounds hal (at24cm0x_device_identifier s) (S j))
     = TWI_Ack hal) ->
  at24cm0x_write_acknowledge_polling hal fuel s = None.
Proof.
  induction fuel as [|fuel IH]; intros s Hbusy; [reflexivity|].
  rewrite polling_round.
  pose proof (Hbusy O ltac:(lia)) as H0. simpl in H0. rewrite H0.
  rewrite Z.eqb_refl. apply IH. simpl.
  intros j Hj. rewrite <- app_assoc. apply (Hbusy (S j)). lia.
Qed.

(* ------------------------------------------------------------------ *)
(** ** Input validation *)

Lemma geb_true (x y : Z) : y <= x -> (x >=? y) = true.
Proof. intros H. apply Z.geb_le. lia. Qed.

Lemma geb_false (x y : Z) : x < y -> (x >=? y) = false.
Proof. intros H. rewrite Z.geb_leb. apply Z.leb_gt. lia. Qed.

(** C6.  Validation comes first and nothing is called when it fails:
    for an address [a >= MEMORY_SIZE], [at24cm0x_write_byte],
    [at24cm0x_read_byte] and [at24cm0x_read_sequential] return
    [Address_Error], and for a page [p >= PAGES], [at24cm0x_write_page]
    returns [Page_Error]; each time the state, and with it the trace of
    calls, is exactly what it was, and the caller's data is untouched. *)
Theorem validation_short_circuits (cfg : Config) (hal : Hal) (fuel : nat)
    (a p d n : Z) (data : list Z) (s : State) :
  AT24CM0X_MEMORY_SIZE cfg <= a ->
  AT24CM0X_PAGES cfg <= p ->
  at24cm0x_write_byte cfg hal fuel a d s
    = Some (AT24CM0X_Status_Address_Error, s)
  /\ at24cm0x_read_byte cfg hal a d s
    = Some ((AT24CM0X_Status_Address_Error, d), s)
  /\ at24cm0x_read_sequential cfg hal a data n s
    = Some ((AT24CM0X_Status_Address_Error, data), s)
  /\ at24cm0x_write_page cfg hal fuel p data n s
    = Some (AT24CM0X_Status_Page_Error, s).
Proof.
  intros Ha Hp.
  unfold at24cm0x_write_byte, at24cm0x_read_byte, at24cm0x_read_sequential,
    at24cm0x_write_page.
  rewrite (geb_true _ _ Ha), (geb_true _ _ Hp).
  repeat split; reflexivity.
Qed.

Lemma validation_short_circuits_witness :
  at24cm0x_write_byte default_config (bench_hal 0 0 0) 0 0x40000 0x7E bench_state
    = Some (AT24CM0X_Status_Address_Error, bench_state)
  /\ at24cm0x_read_byte default_config (bench_hal 0 0 0) 0x40000 0x7E bench_state
    = Some ((AT24CM0X_Status_Address_Error, 0x7E), bench_state)
  /\ at24cm0x_read_sequential default_config (bench_hal 0 0 0) 0x40000 [1; 2] 2
       bench_state
    = Some ((AT24CM0X_Status_Address_Error, [1; 2]), bench_state)
  /\ at24cm0x_write_page default_config (bench_hal 0 0 0) 0 1024 [1; 2] 2
       bench_state
    = Some (AT24CM0X_Status_Page_Error, bench_state).
Proof.
  apply (validation_short_circuits default_config (bench_hal 0 0 0) 0
           0x40000 1024 0x7E 2 [1; 2] bench_state).
  - vm_compute; discriminate.
  - vm_compute; discriminate.
Defined.

Lemma write_page_verify_status (cfg : Config) (hal : Hal) (address : Z)
    (data : list Z) (size : Z) (s s' : State)
    (early : option AT24CM0X_Status) :
  write_page_verify cfg hal address data size s = Some (early, s') ->
  early = Some AT24CM0X_Status_TWI_Error
  \/ early = Some AT24CM0X_Status_Data_Error
  \/ early = None.
Proof.
  unfold write_page_verify. intros H.
  apply bind_Some_inv in H as ([st buffer] & s1 & _ & H).
  destruct (negb (status_is_done st)); [injection H as <- _; auto|].
  destruct (page_mismatch _ _ _ _); injection H as <- _; auto.
Qed.

(** C7.  For a valid page [p], [at24cm0x_write_page] returns [Size_Error]
    exactly when [n = 0] or [n >= PAGE_SIZE] (so a full page,
    [n = PAGE_SIZE], is refused), and then nothing has been called. *)
Theorem write_page_size_error_iff (cfg : Config) (hal : Hal) (fuel : nat)
    (p n : Z) (data : list Z) (s : State) :
  p < AT24CM0X_PAGES cfg ->
  ((n = 0 \/ AT24CM0X_PAGE_SIZE cfg <= n) ->
     at24cm0x_write_page cfg hal fuel p data n s
     = Some (AT24CM0X_Status_Size_Error, s))
  /\ (forall s',
        at24cm0x_write_page cfg hal fuel p data n s
        = Some (AT24CM0X_Status_Size_Error, s') ->
        n = 0 \/ AT24CM0X_PAGE_SIZE cfg <= n).
Proof.
  intros Hp. unfold at24cm0x_write_page. rewrite (geb_false _ _ Hp).
  split.
  - intros [-> | Hn].
    + reflexivity.
    + rewrite (geb_true _ _ Hn), orb_true_r. reflexivity.
  - intros s' H.
    destruct (n =? 0) eqn:E0; [left; now apply Z.eqb_eq|].
    destruct (n >=? AT24CM0X_PAGE_SIZE cfg) eqn:E1;
      [right; apply Z.geb_le in E1; lia|].
    exfalso. simpl in H.
    apply bind_Some_inv in H as (error & s1 & _ & H).
    apply bind_Some_inv in H as (early & s2 & Hv & H).
    destruct (AT24CM0X_ENABLE_INTEGRITY_CHECK cfg).
    + apply write_page_verify_status in Hv as [-> | [-> | ->]];
        try (injection H as H _; discriminate).
      unfold status_of_error in H.
      destruct (negb (error =? TWI_None)); injection H as H _; discriminate.
    + injection Hv as <- _. unfold status_of_error in H.
      destruct (negb (error =? TWI_None)); injection H as H _; discriminate.
Qed.

Lemma write_page_size_error_iff_witness :
  ((256 = 0 \/ AT24CM0X_PAGE_SIZE default_config <= 256) ->
     at24cm0x_write_page default_config (bench_hal 0 0 0) 0 2 [] 256 bench_state
     = Some (AT24CM0X_Status_Size_Error, bench_state))
  /\ (forall s',
        at24cm0x_write_page default_config (bench_hal 0 0 0) 0 2 [] 256
          bench_state
        = Some (AT24CM0X_Status_Size_Error, s') ->
        256 = 0 \/ AT24CM0X_PAGE_SIZE default_config <= 256).
Proof.
  apply (write_page_size_error_iff default_config (bench_hal 0 0 0) 0 2 256 []
           bench_state).
  vm_compute; reflexivity.
Defined.

(* ------------------------------------------------------------------ *)
(** ** Write byte: the read-back of the integrity check *)

Lemma write_byte_verify_run (cfg : Config) (hal : Hal) (a d : Z)
    (s1 s2 : State) (rst : AT24CM0X_Status) (temp : Z) :
  at24cm0x_read_byte cfg hal a 0 s1 = Some ((rst, temp), s2) ->
  write_byte_verify cfg hal a d s1 =
  Some (if negb (status_is_done rst) then AT24CM0X_Status_TWI_Error
        else if negb (d =? temp) then AT24CM0X_Status_Data_Error
        else AT24CM0X_Status_Done,
        s2).
Proof.
  intros H. unfold write_byte_verify. cbv zeta.
  rewrite (bind_run _ _ _ _ _ H).
  destruct (negb (status_is_done rst)); [reflexivity|].
  destruct (negb (d =? temp)); reflexivity.
Qed.

Lemma status_is_done_false (st : AT24CM0X_Status) :
  st <> AT24CM0X_Status_Done -> status_is_done st = false.
Proof.
  intros H. unfold status_is_done.
  destruct (AT24CM0X_Status_eq_dec st AT24CM0X_Status_Done); congruence.
Qed.

Lemma status_is_done_true (st : AT24CM0X_Status) :
  status_is_done st = true -> st = AT24CM0X_Status_Done.
Proof.
  unfold status_is_done.
  destruct (AT24CM0X_Status_eq_dec st AT24CM0X_Status_Done);
    [auto | discriminate].
Qed.

(** C10.  With the integrity check compiled in, let [at24cm0x_write_byte]
    return [st] for a valid address (for any other address nothing is
    written and nothing is read back).  (1) If its write transaction accumulated no error and
    the read-back, [at24cm0x_read_byte] at the written address, returns a
    status other than [Done], then [st] is [TWI_Error], so not
    [Data_Error].  (2) If [st] is [Data_Error], then the transaction
    accumulated no error, the read-back returned [Done], and the byte it
    read differs from the byte written. *)
Theorem write_byte_data_error_only_on_mismatch (cfg : Config) (hal : Hal)
    (fuel : nat) (a d : Z) (s s' : State) (st : AT24CM0X_Status) :
  AT24CM0X_ENABLE_INTEGRITY_CHECK cfg = true ->
  a < AT24CM0X_MEMORY_SIZE cfg ->
  at24cm0x_write_byte cfg hal fuel a d s = Some (st, s') ->
  (forall s1 rst temp s2,
     write_byte_transaction cfg hal fuel a d s = Some (TWI_None, s1) ->
     at24cm0x_read_byte cfg hal a 0 s1 = Some ((rst, temp), s2) ->
     rst <> AT24CM0X_Status_Done ->
     st = AT24CM0X_Status_TWI_Error /\ s' = s2)
  /\ (st = AT24CM0X_Status_Data_Error ->
      exists s1 temp,
        write_byte_transaction cfg hal fuel a d s = Some (TWI_None, s1)
        /\ at24cm0x_read_byte cfg hal a 0 s1
           = Some ((AT24CM0X_Status_Done, temp), s')
        /\ temp <> d).
Proof.
  intros Hcheck Ha H. unfold at24cm0x_write_byte in H.
  rewrite (geb_false _ _ Ha) in H.
  apply bind_Some_inv in H as (error & s1 & Htx & H).
  rewrite Hcheck in H.
  destruct (error =? TWI_None) eqn:Eerr; simpl in H.
  - apply Z.eqb_eq in Eerr. subst error.
    unfold write_byte_verify in H. cbv zeta in H.
    apply bind_Some_inv in H as ([rst temp] & s2 & Hrb & H).
    split.
    + intros s1' rst' temp' s2' Htx' Hrb' Hrst.
      rewrite Htx in Htx'. injection Htx' as <-.
      rewrite Hrb in Hrb'. injection Hrb' as <- <- <-.
      rewrite (status_is_done_false _ Hrst) in H. simpl in H.
      injection H as <- <-. auto.
    + intros ->.
      destruct (status_is_done rst) eqn:Edone; simpl in H;
        [|injection H as H _; discriminate].
      apply status_is_done_true in Edone. subst rst.
      destruct (d =? temp) eqn:Ed; simpl in H;
        [injection H as H _; discriminate|].
      injection H as <-.
      exists s1, temp. repeat split; auto.
      apply Z.eqb_neq in Ed. congruence.
  - injection H as <- <-. split.
    + intros s1' rst temp s2 Htx' _ _.
      rewrite Htx in Htx'. injection Htx' as E _. subst error.
      discriminate.
    + discriminate.
Qed.

Lemma write_byte_data_error_only_on_mismatch_witness :
  exists st s',
    at24cm0x_write_byte integrity_config (bench_hal 0 0 0x22) 0 0 0x11
      bench_state = Some (st, s')
    /\ st = AT24CM0X_Status_Data_Error
    /\ exists s1 temp,
         write_byte_transaction integrity_config (bench_hal 0 0 0x22) 0 0 0x11
           bench_state = Some (TWI_None, s1)
         /\ at24cm0x_read_byte integrity_config (bench_hal 0 0 0x22) 0 0 s1
            = Some ((AT24CM0X_Status_Done, temp), s')
         /\ temp <> 0x11.
Proof.
  do 2 eexists. split; [vm_compute; reflexivity|]. split; [reflexivity|].
  refine (proj2 (write_byte_data_error_only_on_mismatch integrity_config
                   (bench_hal 0 0 0x22) 0 0 0x11 bench_state _ _ _ _ _)
            eq_refl);
    reflexivity.
Defined.

(* ------------------------------------------------------------------ *)
(** ** Write protection *)

Lemma not_wp_any (e : Event) : not_wp e -> not_wp e.
Proof. auto. Qed.

Lemma emits_closing_bind {A B : Type} (m : M A) (f : A -> M B) :
  emits_only not_wp m -> (forall a, emits_closing (f a)) ->
  emits_closing (bind m f).
Proof.
  intros Hm Hf s b s' H.
  apply bind_Some_inv in H as (a & s1 & H1 & H2).
  apply Hm in H1 as (e1 & -> & F1).
  apply Hf in H2 as (e2 & -> & F2). simpl.
  exists (e1 ++ e2). rewrite <- !app_assoc. split; [reflexivity|].
  apply Forall_app; auto.
Qed.

Lemma emits_closing_last {A : Type} (a : A) :
  emits_closing (at24cm0x_wp AT24CM0X_WP_Mode_Enabled ;;; ret a).
Proof.
  intros s r s' H. injection H as <- <-. exists []. split; auto.
Qed.

Lemma write_byte_transaction_bracket (cfg : Config) (hal : Hal) (fuel : nat)
    (a d : Z) (s s1 : State) (error : Z) :
  AT24CM0X_WP_CONTROL_EN cfg = true ->
  write_byte_transaction cfg hal fuel a d s = Some (error, s1) ->
  exists bus,
    s1 = mkState (at24cm0x_device_identifier s)
           (trace s ++ Ev_at24cm0x_wp AT24CM0X_WP_Mode_Disabled :: bus
                   ++ [Ev_at24cm0x_wp AT24CM0X_WP_Mode_Enabled])
    /\ Forall not_wp bus.
Proof.
  intros Hwp H. unfold write_byte_transaction in H. rewrite Hwp in H.
  cbv zeta in H. simpl when_defined in H.
  apply bind_Some_inv in H as (u & s0 & H0 & H). injection H0 as _ <-.
  assert (C : emits_closing
    (twi_start ;;;
     e1 <- at24cm0x_send_address cfg hal a ;;
     e2 <- twi_set hal d ;;
     twi_stop ;;;
     write_completion_wait cfg hal fuel ;;;
     at24cm0x_wp AT24CM0X_WP_Mode_Enabled ;;;
     ret (Z.lor (Z.lor TWI_None e1) e2))).
  { apply emits_closing_bind;
      [apply emits_only_twi_start, not_wp_any | intros _].
    apply emits_closing_bind;
      [apply emits_only_send_address, not_wp_any | intros e1].
    apply emits_closing_bind;
      [apply emits_only_twi_set, not_wp_any | intros e2].
    apply emits_closing_bind;
      [apply emits_only_twi_stop, not_wp_any | intros _].
    apply emits_closing_bind;
      [apply emits_only_write_completion_wait, not_wp_any | intros _].
    apply emits_closing_last. }
  apply C in H as (bus & -> & F). simpl.
  exists bus. rewrite <- app_assoc. auto.
Qed.

Lemma write_page_transaction_bracket (cfg : Config) (hal : Hal) (fuel : nat)
    (address : Z) (data : list Z) (size : Z) (s s1 : State) (error : Z) :
  AT24CM0X_WP_CONTROL_EN cfg = true ->
  write_page_transaction cfg hal fuel address data size s = Some (error, s1) ->
  exists bus,
    s1 = mkState (at24cm0x_device_identifier s)
           (trace s ++ Ev_at24cm0x_wp AT24CM0X_WP_Mode_Disabled :: bus
                   ++ [Ev_at24cm0x_wp AT24CM0X_WP_Mode_Enabled])
    /\ Forall not_wp bus.
Proof.
  intros Hwp H. unfold write_page_transaction in H. rewrite Hwp in H.
  cbv zeta in H. simpl when_defined in H.
  apply bind_Some_inv in H as (u & s0 & H0 & H). injection H0 as _ <-.
  assert (C : emits_closing
    (twi_start ;;;
     at24cm0x_send_address cfg hal address ;;;
     error <- for_loop (Z.to_nat size) 0 (write_page_body hal data) TWI_None ;;
     twi_stop ;;;
     write_completion_wait cfg hal fuel ;;;
     at24cm0x_wp AT24CM0X_WP_Mode_Enabled ;;;
     ret error)).
  { apply emits_closing_bind;
      [apply emits_only_twi_start, not_wp_any | intros _].
    apply emits_closing_bind;
      [apply emits_only_send_address, not_wp_any | intros _].
    apply emits_closing_bind; [|intros e].
    { apply emits_only_for_loop. intros i acc. unfold write_page_body.
      apply emits_only_bind;
        [apply emits_only_twi_set, not_wp_any
        | intros e; apply emits_only_ret]. }
    apply emits_closing_bind;
      [apply emits_only_twi_stop, not_wp_any | intros _].
    apply emits_closing_bind;
      [apply emits_only_write_completion_wait, not_wp_any | intros _].
    apply emits_closing_last. }
  apply C in H as (bus & -> & F). simpl.
  exists bus. rewrite <- app_assoc. auto.
Qed.

Lemma wp_pin_app (level : AT24CM0X_WP_Mode) (evs evs' : list Event) :
  wp_pin level (evs ++ evs') = wp_pin (wp_pin level evs) evs'.
Proof.
  revert level. induction evs as [|e evs IH]; intros level; simpl; auto.
  destruct e; auto.
Qed.

Lemma wp_pin_wp (level mode : AT24CM0X_WP_Mode) (evs : list Event) :
  wp_pin level (Ev_at24cm0x_wp mode :: evs) = wp_pin mode evs.
Proof. reflexivity. Qed.

Lemma wp_pin_not_wp (level : AT24CM0X_WP_Mode) (evs : list Event) :
  Forall not_wp evs -> wp_pin level evs = level.
Proof.
  induction 1 as [|e evs He _ IH]; simpl; auto.
  destruct e; auto. discriminate He.
Qed.

Lemma bracket_leaves_locked (s s' s1 : State) (bus readback : list Event) :
  s1 = mkState (at24cm0x_device_identifier s)
         (trace s ++ Ev_at24cm0x_wp AT24CM0X_WP_Mode_Disabled :: bus
                 ++ [Ev_at24cm0x_wp AT24CM0X_WP_Mode_Enabled]) ->
  Forall not_wp bus ->
  s' = mkState (at24cm0x_device_identifier s1) (trace s1 ++ readback) ->
  Forall not_wp readback ->
  leaves_locked s s'.
Proof.
  intros -> Fbus -> Frb. unfold leaves_locked.
  cbn [trace at24cm0x_device_identifier].
  assert (E : (trace s ++ Ev_at24cm0x_wp AT24CM0X_WP_Mode_Disabled :: bus
                 ++ [Ev_at24cm0x_wp AT24CM0X_WP_Mode_Enabled]) ++ readback
              = trace s ++ Ev_at24cm0x_wp AT24CM0X_WP_Mode_Disabled :: bus
                 ++ Ev_at24cm0x_wp AT24CM0X_WP_Mode_Enabled :: readback).
  { rewrite <- app_assoc. simpl. now rewrite <- app_assoc. }
  rewrite E. split.
  - right. exists bus, readback. auto.
  - intros level _.
    rewrite wp_pin_app, wp_pin_wp, wp_pin_app, wp_pin_wp.
    now apply wp_pin_not_wp.
Qed.

(** C8.  With write-protect control compiled in, whenever
    [at24cm0x_write_byte] or [at24cm0x_write_page] returns, with whatever
    status, it has either called nothing (the input was refused before
    the pin was touched) or its calls are: [at24cm0x_wp(Disabled)], bus
    work that leaves the pin alone, [at24cm0x_wp(Enabled)], and after
    that only the read-back of the integrity check, which leaves the pin
    alone too.  So a pin at [Enabled] before the call is at [Enabled]
    after it. *)
Theorem write_protect_reasserted (cfg : Config) (hal : Hal) (fuel : nat)
    (a d p n : Z) (data : list Z) (s : State) :
  AT24CM0X_WP_CONTROL_EN cfg = true ->
  (forall st s',
     at24cm0x_write_byte cfg hal fuel a d s = Some (st, s') ->
     leaves_locked s s')
  /\ (forall st s',
        at24cm0x_write_page cfg hal fuel p data n s = Some (st, s') ->
        leaves_locked s s').
Proof.
  intros Hwp. split; intros st s' H.
  - unfold at24cm0x_write_byte in H.
    destruct (a >=? AT24CM0X_MEMORY_SIZE cfg).
    { injection H as _ <-. split; auto. }
    apply bind_Some_inv in H as (error & s1 & Htx & H).
    apply (write_byte_transaction_bracket _ _ _ _ _ _ _ _ Hwp) in Htx
      as (bus & Es1 & Fbus).
    assert (T : emits_only not_wp
      (if negb (error =? TWI_None)
       then ret AT24CM0X_Status_TWI_Error
       else if AT24CM0X_ENABLE_INTEGRITY_CHECK cfg
       then write_byte_verify cfg hal a d
       else ret AT24CM0X_Status_Done)).
    { destruct (negb (error =? TWI_None)); [apply emits_only_ret|].
      destruct (AT24CM0X_ENABLE_INTEGRITY_CHECK cfg);
        [apply emits_only_write_byte_verify, not_wp_any
        | apply emits_only_ret]. }
    apply T in H as (readback & Es' & Frb).
    eapply bracket_leaves_locked; eauto.
  - unfold at24cm0x_write_page in H.
    destruct (p >=? AT24CM0X_PAGES cfg).
    { injection H as _ <-. split; auto. }
    destruct ((n =? 0) || (n >=? AT24CM0X_PAGE_SIZE cfg)).
    { injection H as _ <-. split; auto. }
    cbv zeta in H.
    apply bind_Some_inv in H as (error & s1 & Htx & H).
    apply (write_page_transaction_bracket _ _ _ _ _ _ _ _ _ Hwp) in Htx
      as (bus & Es1 & Fbus).
    assert (T : emits_only not_wp
      (early <- (if AT24CM0X_ENABLE_INTEGRITY_CHECK cfg
                 then write_page_verify cfg hal
                        (to_ulong (p * AT24CM0X_PAGE_SIZE cfg)) data n
                 else ret None) ;;
       match early with
       | Some st => ret st
       | None => ret (status_of_error error)
       end)).
    { apply emits_only_bind.
      - destruct (AT24CM0X_ENABLE_INTEGRITY_CHECK cfg);
          [apply emits_only_write_page_verify, not_wp_any
          | apply emits_only_ret].
      - intros [st0|]; apply emits_only_ret. }
    apply T in H as (readback & Es' & Frb).
    eapply bracket_leaves_locked; eauto.
Qed.

Lemma write_protect_reasserted_witness :
  exists st s',
    at24cm0x_write_byte wp_config (bench_hal 3 1 0) 0 0 0x7E bench_state
    = Some (st, s')
    /\ st = AT24CM0X_Status_TWI_Error
    /\ leaves_locked bench_state s'.
Proof.
  do 2 eexists. split; [vm_compute; reflexivity|]. split; [reflexivity|].
  refine (proj1 (write_protect_reasserted wp_config (bench_hal 3 1 0) 0
                   0 0x7E 0 0 [] bench_state _) _ _ _);
    reflexivity.
Defined.

(* ------------------------------------------------------------------ *)
(** ** The stored device identifier *)

Lemma emits_only_keeps_identifier {A : Type} (phi : Event -> Prop) (m : M A) :
  emits_only phi m -> keeps_identifier m.
Proof.
  intros H s r s' Hs. apply H in Hs as (evs & -> & _). reflexivity.
Qed.

Lemma any_event_bus (e : Event) : not_wp e -> any_event e.
Proof. intros _. exact I. Qed.

Lemma any_event_wp (mode : AT24CM0X_WP_Mode) :
  any_event (Ev_at24cm0x_wp mode).
Proof. exact I. Qed.

Lemma header_masks_disjoint (memory_size identifier : Z) :
  Z.land (to_uchar (Z.lor 0x50 (Z.land identifier
                                  (header_ADDRESS_MASK memory_size))))
         (header_ADDRESS_HIGH_MASK memory_size) = 0.
Proof.
  rewrite to_uchar_land, <- Z.land_assoc, Z.land_lor_distr_l.
  rewrite <- (Z.land_assoc identifier).
  unfold header_ADDRESS_MASK, header_ADDRESS_HIGH_MASK.
  destruct (memory_size <? 262144);
    change (Z.land 0x50 (Z.land 0xFF 0x01)) with 0;
    change (Z.land 0x06 (Z.land 0xFF 0x01)) with 0;
    change (Z.land 0x50 (Z.land 0xFF 0x03)) with 0;
    change (Z.land 0x04 (Z.land 0xFF 0x03)) with 0;
    now rewrite Z.land_0_r.
Qed.

Lemma header_address_clear (memory_size a2 a1 : Z) :
  0 <= a2 <= 1 -> 0 <= a1 <= 1 ->
  Z.land (to_uchar (header_ADDRESS memory_size a2 a1))
         (header_ADDRESS_HIGH_MASK memory_size) = 0.
Proof.
  intros H2 H1.
  assert (E2 : a2 = 0 \/ a2 = 1) by lia.
  assert (E1 : a1 = 0 \/ a1 = 1) by lia.
  unfold header_ADDRESS, header_ADDRESS_HIGH_MASK.
  destruct (memory_size <? 262144), E2 as [-> | ->], E1 as [-> | ->];
    reflexivity.
Qed.

(** C9.  On a build configured through the header (strap pins A2 and A1
    given as 0 or 1), the bits of the stored
    [at24cm0x_device_identifier] under [AT24CM0X_ADDRESS_HIGH_MASK] are
    zero after [at24cm0x_init] and after [at24cm0x_device] with any
    identifier, and no other operation of the driver assigns the stored
    identifier: [at24cm0x_send_address], the write-completion polling and
    the five read and write operations all leave it as it is, so the high
    address bits only ever reach the byte handed to [twi_address]. *)
Theorem device_identifier_high_bits_clear
    (memory_size pages page_size a2 a1 cycle_ms : Z)
    (integrity polling multi wp : bool) (hal : Hal) (fuel : nat) :
  let cfg := header_config memory_size pages page_size a2 a1 cycle_ms
               integrity polling multi wp in
  0 <= a2 <= 1 ->
  0 <= a1 <= 1 ->
  (forall s, exists s',
      at24cm0x_init cfg s = Some (tt, s') /\ high_bits_clear cfg s')
  /\ (forall identifier s, exists s',
      at24cm0x_device cfg identifier s = Some (tt, s')
      /\ high_bits_clear cfg s')
  /\ (forall a, keeps_identifier (at24cm0x_send_address cfg hal a))
  /\ keeps_identifier (at24cm0x_write_acknowledge_polling hal fuel)
  /\ (forall a d, keeps_identifier (at24cm0x_write_byte cfg hal fuel a d))
  /\ (forall p data n,
        keeps_identifier (at24cm0x_write_page cfg hal fuel p data n))
  /\ (forall data, keeps_identifier (at24cm0x_read_current_byte hal data))
  /\ (forall a data, keeps_identifier (at24cm0x_read_byte cfg hal a data))
  /\ (forall a data n,
        keeps_identifier (at24cm0x_read_sequential cfg hal a data n)).
Proof.
  intros cfg H2 H1. repeat split.
  - intros s. unfold at24cm0x_init, cfg; simpl.
    destruct wp, multi; simpl; eexists; (split; [reflexivity|]);
      unfold high_bits_clear; simpl;
      first [ apply (header_address_clear memory_size a2 a1 H2 H1)
            | apply (header_masks_disjoint memory_size 0) ].
  - intros identifier s. eexists. split; [reflexivity|].
    apply header_masks_disjoint.
  - intros a. apply (emits_only_keeps_identifier any_event).
    apply emits_only_send_address, any_event_bus.
  - apply (emits_only_keeps_identifier any_event).
    apply emits_only_polling, any_event_bus.
  - intros a d. apply (emits_only_keeps_identifier any_event).
    apply emits_only_write_byte; [apply any_event_bus | apply any_event_wp].
  - intros p data n. apply (emits_only_keeps_identifier any_event).
    apply emits_only_write_page; [apply any_event_bus | apply any_event_wp].
  - intros data. apply (emits_only_keeps_identifier any_event).
    apply emits_only_read_current_byte, any_event_bus.
  - intros a data. apply (emits_only_keeps_identifier any_event).
    apply emits_only_read_byte, any_event_bus.
  - intros a data n. apply (emits_only_keeps_identifier any_event).
    apply emits_only_read_sequential, any_event_bus.
Qed.

Lemma device_identifier_high_bits_clear_witness :
  (forall s, exists s',
      at24cm0x_init default_config s = Some (tt, s')
      /\ high_bits_clear default_config s')
  /\ (forall identifier s, exists s',
      at24cm0x_device default_config identifier s = Some (tt, s')
      /\ high_bits_clear default_config s')
  /\ (forall a,
        keeps_identifier
          (at24cm0x_send_address default_config (bench_hal 0 0 0) a))
  /\ keeps_identifier (at24cm0x_write_acknowledge_polling (bench_hal 0 0 0) 1)
  /\ (forall a d,
        keeps_identifier
          (at24cm0x_write_byte default_config (bench_hal 0 0 0) 1 a d))
  /\ (forall p data n,
        keeps_identifier
          (at24cm0x_write_page default_config (bench_hal 0 0 0) 1 p data n))
  /\ (forall data,
        keeps_identifier (at24cm0x_read_current_byte (bench_hal 0 0 0) data))
  /\ (forall a data,
        keeps_identifier
          (at24cm0x_read_byte default_config (bench_hal 0 0 0) a data))
  /\ (forall a data n,
        keeps_identifier
          (at24cm0x_read_sequential default_config (bench_hal 0 0 0) a data n)).
Proof.
  apply (device_identifier_high_bits_clear 262144 1024 256 1 1 10
           false false false false (bench_hal 0 0 0) 1); lia.
Defined.

(* ------------------------------------------------------------------ *)
(** ** Where the page path departs from the byte path *)

(** C3.  A bus whose second call, the [twi_address] of the address phase,
    reports an error and whose other calls succeed.  [at24cm0x_write_page]
    returns [Done]: it calls [at24cm0x_send_address] without using the
    result, so the error never reaches the flag it tests.
    [at24cm0x_write_byte] on the same bus returns [TWI_Error]. *)
Theorem write_page_drops_address_phase_error :
  twi_reply (bench_hal 2 1 0) [Ev_twi_start; Ev_twi_address 0x54 0] <> TWI_None
  /\ at24cm0x_write_page default_config (bench_hal 2 1 0) 0 0 [0x11] 1
       bench_state
     = Some (AT24CM0X_Status_Done,
             mkState 0x54
               [Ev_twi_start; Ev_twi_address 0x54 0; Ev_twi_set 0;
                Ev_twi_set 0; Ev_twi_set 0x11; Ev_twi_stop;
                Ev_systick_timer_wait_ms 10])
  /\ at24cm0x_write_byte default_config (bench_hal 2 1 0) 0 0 0x11 bench_state
     = Some (AT24CM0X_Status_TWI_Error,
             mkState 0x54
               [Ev_twi_start; Ev_twi_address 0x54 0; Ev_twi_set 0;
                Ev_twi_set 0; Ev_twi_set 0x11; Ev_twi_stop;
                Ev_systick_timer_wait_ms 10]).
Proof.
  split; [vm_compute; discriminate|]. split; vm_compute; reflexivity.
Qed.

(** C5.  The integrity check compiled in, and a bus whose fifth call, the
    [twi_set] of the data byte, reports an error.  [at24cm0x_write_page]
    tests the accumulated error only after the read-back: it performs the
    sequential read all the same, and returns [Data_Error] when the byte
    read back differs, [TWI_Error] when it matches.
    [at24cm0x_write_byte] on the same bus returns [TWI_Error] without
    reading anything back. *)
Theorem write_page_reads_back_before_error_test :
  at24cm0x_write_page integrity_config (bench_hal 5 1 0x22) 0 0 [0x11] 1
    bench_state
  = Some (AT24CM0X_Status_Data_Error,
          mkState 0x54
            [Ev_twi_start; Ev_twi_address 0x54 0; Ev_twi_set 0; Ev_twi_set 0;
             Ev_twi_set 0x11; Ev_twi_stop; Ev_systick_timer_wait_ms 10;
             Ev_twi_start; Ev_twi_address 0x54 0; Ev_twi_set 0; Ev_twi_set 0;
             Ev_twi_stop; Ev_twi_start; Ev_twi_address 0x54 1; Ev_twi_get 1;
             Ev_twi_stop])
  /\ at24cm0x_write_page integrity_config (bench_hal 5 1 0x11) 0 0 [0x11] 1
       bench_state
     = Some (AT24CM0X_Status_TWI_Error,
             mkState 0x54
               [Ev_twi_start; Ev_twi_address 0x54 0; Ev_twi_set 0;
                Ev_twi_set 0; Ev_twi_set 0x11; Ev_twi_stop;
                Ev_systick_timer_wait_ms 10;
                Ev_twi_start; Ev_twi_address 0x54 0; Ev_twi_set 0;
                Ev_twi_set 0; Ev_twi_stop; Ev_twi_start;
                Ev_twi_address 0x54 1; Ev_twi_get 1; Ev_twi_stop])
  /\ at24cm0x_write_byte integrity_config (bench_hal 5 1 0x22) 0 0 0x11
       bench_state
     = Some (AT24CM0X_Status_TWI_Error,
             mkState 0x54
               [Ev_twi_start; Ev_twi_address 0x54 0; Ev_twi_set 0;
                Ev_twi_set 0; Ev_twi_set 0x11; Ev_twi_stop;
                Ev_systick_timer_wait_ms 10]).
Proof.
  repeat split; vm_compute; reflexivity.
Qed.

(* ------------------------------------------------------------------ *)
(** ** Termination *)

Lemma returns_ret {A : Type} (a : A) : returns (ret a).
Proof. intros s. eexists; reflexivity. Qed.

Lemma returns_emit (e : Event) : returns (emit e).
Proof. intros s. eexists; reflexivity. Qed.

Lemma returns_bind {A B : Type} (m : M A) (f : A -> M B) :
  returns m -> (forall a, returns (f a)) -> returns (bind m f).
Proof.
  intros Hm Hf s. destruct (Hm s) as [[a s1] H1].
  rewrite (bind_run _ _ _ _ _ H1). apply Hf.
Qed.

Lemma returns_for_loop {A : Type} (body : Z -> A -> M A) :
  (forall i acc, returns (body i acc)) ->
  forall n i acc, returns (for_loop n i body acc).
Proof.
  intros Hbody n. induction n as [|n IH]; intros i acc; simpl.
  - apply returns_ret.
  - apply returns_bind; auto.
Qed.

Lemma returns_pure {A : Type} (e : Event) (g : State -> A) :
  returns (emit e ;;; fun s => Some (g s, s)).
Proof. intros s. eexists; reflexivity. Qed.

Ltac returns_steps :=
  repeat first
    [ apply returns_ret
    | apply returns_emit
    | apply returns_pure
    | assumption
    | apply returns_for_loop; intros
    | apply returns_bind; [|intros]
    | match goal with
      | |- returns (let '(_, _) := ?p in _) => destruct p
      | |- returns (if ?c then _ else _) => destruct c
      | |- returns (match ?c with Some _ => _ | None => _ end) => destruct c
      | |- returns read_device_identifier => intros ?; eexists; reflexivity
      end ].

Lemma returns_send_address (cfg : Config) (hal : Hal) (a : Z) :
  returns (at24cm0x_send_address cfg hal a).
Proof.
  unfold at24cm0x_send_address, twi_address, twi_set. returns_steps.
Qed.

(** The three read operations return on every bus. *)
Lemma read_operations_return (cfg : Config) (hal : Hal) (a d n : Z)
    (data : list Z) :
  returns (at24cm0x_read_current_byte hal d)
  /\ returns (at24cm0x_read_byte cfg hal a d)
  /\ returns (at24cm0x_read_sequential cfg hal a data n).
Proof.
  pose proof (returns_send_address cfg hal a) as Hsend.
  unfold at24cm0x_read_current_byte, at24cm0x_read_byte,
    at24cm0x_read_sequential, read_sequential_body,
    twi_start, twi_stop, twi_address, twi_get.
  repeat split; returns_steps.
Qed.

(** With the fixed delay instead of acknowledge polling, so do the two
    write operations, whatever the fuel. *)
Lemma write_operations_return (cfg : Config) (hal : Hal) (fuel : nat)
    (a d p n : Z) (data : list Z) :
  AT24CM0X_WRITE_ACKNOWLEDGE_POLLING cfg = false ->
  returns (at24cm0x_write_byte cfg hal fuel a d)
  /\ returns (at24cm0x_write_page cfg hal fuel p data n).
Proof.
  intros Hpoll.
  pose proof (returns_send_address cfg hal) as Hsend.
  destruct (read_operations_return cfg hal a 0 n data) as (_ & Hrb & _).
  pose proof (fun address buffer =>
                proj2 (proj2 (read_operations_return cfg hal address 0 n
                                buffer))) as Hrs.
  unfold at24cm0x_write_byte, write_byte_transaction, write_byte_verify,
    at24cm0x_write_page, write_page_transaction, write_page_verify,
    write_page_body, write_completion_wait, when_defined, at24cm0x_wp,
    systick_timer_wait_ms, twi_start, twi_stop, twi_set.
  rewrite Hpoll.
  split; returns_steps; try apply Hsend; try apply Hrs.
Qed.

(* ------------------------------------------------------------------ *)
(** ** Status and bus errors *)

Lemma lor_none (a b : Z) :
  Z.lor a b = TWI_None <-> a = TWI_None /\ b = TWI_None.
Proof. unfold TWI_None. apply Z.lor_eq_0_iff. Qed.

Lemma status_of_error_done (error : Z) :
  status_of_error error = AT24CM0X_Status_Done <-> error = TWI_None.
Proof.
  unfold status_of_error.
  destruct (error =? TWI_None) eqn:E; simpl.
  - apply Z.eqb_eq in E. tauto.
  - apply Z.eqb_neq in E. split; [discriminate | tauto].
Qed.

Lemma read_status_done (error : Z) :
  (if negb (error =? TWI_None) || negb (status_is_done AT24CM0X_Status_Done)
   then AT24CM0X_Status_TWI_Error else AT24CM0X_Status_Done)
  = status_of_error error.
Proof. unfold status_of_error. now destruct (error =? TWI_None). Qed.

Lemma status_of_error_cases (error : Z) :
  status_of_error error = AT24CM0X_Status_Done
  \/ status_of_error error = AT24CM0X_Status_TWI_Error.
Proof. unfold status_of_error. destruct (negb (error =? TWI_None)); auto. Qed.

Lemma replies_app (hal : Hal) (evs evs' : list Event) :
  forall h,
  replies hal h (evs ++ evs') = replies hal h evs ++ replies hal (h ++ evs) evs'.
Proof.
  induction evs as [|e evs IH]; intros h; simpl.
  - now rewrite app_nil_r.
  - rewrite IH, <- app_assoc. simpl. now destruct (returns_error e).
Qed.

Lemma no_bus_error_app (hal : Hal) (h evs evs' : list Event) :
  no_bus_error hal h (evs ++ evs')
  <-> no_bus_error hal h evs /\ no_bus_error hal (h ++ evs) evs'.
Proof. unfold no_bus_error. rewrite replies_app. apply Forall_app. Qed.

Lemma no_bus_error_nil (hal : Hal) (h : list Event) : no_bus_error hal h [].
Proof. constructor. Qed.

Lemma status_split (error : Z) (P : Prop) :
  (error = TWI_None <-> P) ->
  (status_of_error error = AT24CM0X_Status_Done <-> P)
  /\ (status_of_error error <> AT24CM0X_Status_Done ->
      status_of_error error = AT24CM0X_Status_TWI_Error).
Proof.
  intros H. split.
  - rewrite status_of_error_done. exact H.
  - destruct (status_of_error_cases error); tauto.
Qed.

Lemma all_none_nil : Forall (fun r : Z => r = TWI_None) [] <-> True.
Proof. split; auto. Qed.

(** Spell out [no_bus_error] over a list of calls that is written out. *)
Ltac bus_errors :=
  unfold no_bus_error; simpl replies;
  rewrite ?Forall_cons_iff, ?all_none_nil, <- ?app_assoc; simpl app.

(** X1.  [at24cm0x_read_current_byte] makes exactly four calls: start,
    the stored identifier addressed in read direction, one receive with
    [TWI_NACK], stop; there is no address phase.  It returns [Done] when
    both answering calls returned [TWI_None] and [TWI_Error] otherwise,
    and in either case the byte behind the pointer is the one the bus
    delivered. *)
Theorem read_current_byte_transaction (hal : Hal) (data : Z) (s : State) :
  let id := at24cm0x_device_identifier s in
  let evs := [Ev_twi_start; Ev_twi_address id (TWI_Read hal);
              Ev_twi_get (TWI_NACK hal); Ev_twi_stop] in
  exists st,
    at24cm0x_read_current_byte hal data s =
    Some ((st, to_uchar (twi_data hal
                           (trace s ++ [Ev_twi_start;
                                        Ev_twi_address id (TWI_Read hal);
                                        Ev_twi_get (TWI_NACK hal)]))),
          mkState id (trace s ++ evs))
    /\ (st = AT24CM0X_Status_Done <-> no_bus_error hal (trace s) evs)
    /\ (st <> AT24CM0X_Status_Done -> st = AT24CM0X_Status_TWI_Error).
Proof.
  intros id evs. subst id evs.
  unfold at24cm0x_read_current_byte, bind, twi_start, read_device_identifier,
    twi_address, twi_get, twi_stop, emit, ret. simpl.
  eexists. split; [rewrite <- !app_assoc; reflexivity|].
  apply status_split. rewrite !lor_none. bus_errors. tauto.
Qed.

Lemma fold_lor_none (rs : list Z) :
  forall error,
  fold_left Z.lor rs error = TWI_None
  <-> error = TWI_None /\ Forall (fun r => r = TWI_None) rs.
Proof.
  induction rs as [|r rs IH]; intros error; simpl.
  - rewrite all_none_nil. tauto.
  - rewrite IH, lor_none, Forall_cons_iff. tauto.
Qed.

Lemma received_app (hal : Hal) (evs evs' : list Event) :
  forall h,
  received hal h (evs ++ evs')
  = received hal h evs ++ received hal (h ++ evs) evs'.
Proof.
  induction evs as [|e evs IH]; intros h; simpl.
  - now rewrite app_nil_r.
  - destruct e; rewrite IH, <- app_assoc; reflexivity.
Qed.

(** The address phase, with its accumulated error spelled out. *)
Lemma send_address_exact (cfg : Config) (hal : Hal) (a : Z) (s : State) :
  at24cm0x_send_address cfg hal a s =
  Some (fold_left Z.lor
          (replies hal (trace s)
             (send_address_events cfg hal (at24cm0x_device_identifier s) a))
          TWI_None,
        mkState (at24cm0x_device_identifier s)
          (trace s ++ send_address_events cfg hal
                        (at24cm0x_device_identifier s) a)).
Proof.
  unfold at24cm0x_send_address, bind, read_device_identifier, twi_address,
    twi_set, emit, ret, send_address_events; simpl.
  rewrite <- !app_assoc; reflexivity.
Qed.

Lemma read_finish {A : Type} (error : Z) (data : A) (s : State) :
  (if negb (error =? TWI_None) || negb (status_is_done AT24CM0X_Status_Done)
   then ret (AT24CM0X_Status_TWI_Error, data)
   else ret (AT24CM0X_Status_Done, data)) s
  = Some ((status_of_error error, data), s).
Proof. unfold status_of_error. now destruct (error =? TWI_None). Qed.

(** Run the next call of a transaction that is not under a binder. *)
Ltac run_step :=
  cbv beta iota;
  first [ erewrite bind_run by apply send_address_exact
        | erewrite bind_run by reflexivity ].

(** X2.  For a valid address [at24cm0x_read_byte] makes exactly these
    calls: start, the three bytes of the address phase, stop, start, the
    stored identifier (as it is stored, without the high bits of the
    memory address) addressed in read direction, one receive with
    [TWI_NACK], stop.  It returns [Done] when every answering call
    returned [TWI_None] and [TWI_Error] otherwise; the byte behind the
    pointer is the one the bus delivered. *)
Theorem read_byte_transaction (cfg : Config) (hal : Hal) (a data : Z)
    (s : State) :
  a < AT24CM0X_MEMORY_SIZE cfg ->
  let id := at24cm0x_device_identifier s in
  let evs := [Ev_twi_start] ++ send_address_events cfg hal id a
             ++ [Ev_twi_stop; Ev_twi_start; Ev_twi_address id (TWI_Read hal);
                 Ev_twi_get (TWI_NACK hal); Ev_twi_stop] in
  exists st,
    at24cm0x_read_byte cfg hal a data s =
    Some ((st, hd data (received hal (trace s) evs)),
          mkState id (trace s ++ evs))
    /\ (st = AT24CM0X_Status_Done <-> no_bus_error hal (trace s) evs)
    /\ (st <> AT24CM0X_Status_Done -> st = AT24CM0X_Status_TWI_Error).
Proof.
  intros Ha id evs. subst id evs.
  eexists. split.
  - unfold at24cm0x_read_byte. rewrite (geb_false _ _ Ha). cbv zeta.
    repeat run_step.
    rewrite read_finish.
    unfold send_address_events. simpl. rewrite <- !app_assoc. simpl.
    reflexivity.
  - apply status_split. rewrite ?lor_none, ?fold_lor_none.
    unfold send_address_events. bus_errors. simpl. rewrite <- ?app_assoc.
    simpl. unfold TWI_None. tauto.
Qed.

Lemma read_byte_transaction_witness :
  exists st,
    at24cm0x_read_byte default_config (bench_hal 0 0 0xA5) 0x1FFFF 0
      bench_state =
    Some ((st, 0xA5),
          mkState 0x54
            [Ev_twi_start; Ev_twi_address 0x55 0; Ev_twi_set 0xFF;
             Ev_twi_set 0xFF; Ev_twi_stop; Ev_twi_start;
             Ev_twi_address 0x54 1; Ev_twi_get 1; Ev_twi_stop])
    /\ (st = AT24CM0X_Status_Done <->
        no_bus_error (bench_hal 0 0 0xA5) []
          [Ev_twi_start; Ev_twi_address 0x55 0; Ev_twi_set 0xFF;
           Ev_twi_set 0xFF; Ev_twi_stop; Ev_twi_start;
           Ev_twi_address 0x54 1; Ev_twi_get 1; Ev_twi_stop])
    /\ (st <> AT24CM0X_Status_Done -> st = AT24CM0X_Status_TWI_Error).
Proof.
  apply (read_byte_transaction default_config (bench_hal 0 0 0xA5) 0x1FFFF 0
           bench_state).
  reflexivity.
Defined.

(** X3.  A sequential read of zero bytes at a valid address is refused
    with [Size_Error]: nothing is called and the buffer is untouched. *)
Theorem read_sequential_size_zero (cfg : Config) (hal : Hal) (a : Z)
    (data : list Z) (s : State) :
  a < AT24CM0X_MEMORY_SIZE cfg ->
  at24cm0x_read_sequential cfg hal a data 0 s
  = Some ((AT24CM0X_Status_Size_Error, data), s).
Proof.
  intros Ha. unfold at24cm0x_read_sequential.
  now rewrite (geb_false _ _ Ha).
Qed.

Lemma read_sequential_size_zero_witness :
  at24cm0x_read_sequential default_config (bench_hal 0 0 0) 0x100 [7; 8] 0
    bench_state
  = Some ((AT24CM0X_Status_Size_Error, [7; 8]), bench_state).
Proof.
  apply (read_sequential_size_zero default_config (bench_hal 0 0 0) 0x100
           [7; 8] bench_state).
  reflexivity.
Defined.

(* ------------------------------------------------------------------ *)
(** ** The buffer of a sequential read *)

Lemma store_after (pre : list Z) (v x : Z) (rest : list Z) :
  store (length pre) v (pre ++ x :: rest) = pre ++ v :: rest.
Proof. induction pre as [|p pre IH]; simpl; [reflexivity | now rewrite IH]. Qed.

Lemma read_loop_exact (hal : Hal) (size : Z) (n : nat) :
  forall i error pre rest s,
  Z.to_nat i = length pre -> 0 <= i -> (n <= length rest)%nat ->
  for_loop n i (read_sequential_body hal size) (error, pre ++ rest) s =
  Some ((fold_left Z.lor (replies hal (trace s) (get_events hal size n i))
           error,
         pre ++ received hal (trace s) (get_events hal size n i)
             ++ skipn n rest),
        mkState (at24cm0x_device_identifier s)
          (trace s ++ get_events hal size n i)).
Proof.
  induction n as [|n IH]; intros i error pre rest s Hi Hpos Hlen.
  - simpl. unfold ret. now rewrite app_nil_r, state_eta.
  - destruct rest as [|x rest]; [simpl in Hlen; lia|].
    simpl for_loop.
    rewrite (bind_run (read_sequential_body hal size i (error, pre ++ x :: rest))
               _ s _ _ eq_refl).
    rewrite Hi, store_after.
    match goal with
    | |- context [pre ++ ?b :: rest] =>
        change (pre ++ b :: rest) with (pre ++ [b] ++ rest);
        rewrite (app_assoc pre [b] rest);
        rewrite (IH (i + 1) _ (pre ++ [b]) rest)
    end.
    + simpl. rewrite <- !app_assoc. reflexivity.
    + rewrite length_app. simpl. lia.
    + lia.
    + simpl in Hlen. lia.
Qed.

(** X4.  A sequential read of [n > 0] bytes at a valid address into a
    buffer of at least [n] bytes: the calls are the positioning phase,
    start, the stored identifier in read direction, [n] receives and stop;
    the status is [Done] when every answering call returned [TWI_None] and
    [TWI_Error] otherwise; afterwards the first [n] bytes of the buffer
    are the bytes the bus delivered, in the order received, and the rest
    of the buffer is as it was. *)
Theorem read_sequential_transaction (cfg : Config) (hal : Hal) (a : Z)
    (data : list Z) (n : Z) (s : State) :
  a < AT24CM0X_MEMORY_SIZE cfg ->
  0 < n ->
  (Z.to_nat n <= length data)%nat ->
  let id := at24cm0x_device_identifier s in
  let evs := ([Ev_twi_start] ++ send_address_events cfg hal id a
              ++ [Ev_twi_stop; Ev_twi_start; Ev_twi_address id (TWI_Read hal)])
             ++ get_events hal n (Z.to_nat n) 0 ++ [Ev_twi_stop] in
  exists st,
    at24cm0x_read_sequential cfg hal a data n s =
    Some ((st, received hal (trace s) evs ++ skipn (Z.to_nat n) data),
          mkState id (trace s ++ evs))
    /\ (st = AT24CM0X_Status_Done <-> no_bus_error hal (trace s) evs)
    /\ (st <> AT24CM0X_Status_Done -> st = AT24CM0X_Status_TWI_Error).
Proof.
  intros Ha Hn Hlen id evs.
  set (pre := [Ev_twi_start] ++ send_address_events cfg hal id a
              ++ [Ev_twi_stop; Ev_twi_start; Ev_twi_address id (TWI_Read hal)])
    in evs.
  set (gets := get_events hal n (Z.to_nat n) 0) in evs.
  assert (Hrun :
    at24cm0x_read_sequential cfg hal a data n s =
    Some ((status_of_error
             (fold_left Z.lor (replies hal (trace s ++ pre) gets)
                (fold_left Z.lor (replies hal (trace s) pre) TWI_None)),
           received hal (trace s ++ pre) gets ++ skipn (Z.to_nat n) data),
          mkState id ((trace s ++ pre) ++ gets ++ [Ev_twi_stop]))).
  { unfold at24cm0x_read_sequential. rewrite (geb_false _ _ Ha).
    replace (n =? 0) with false by (symmetry; apply Z.eqb_neq; lia).
    cbv zeta. repeat run_step.
    erewrite bind_run
      by (apply (read_loop_exact hal n (Z.to_nat n) 0 _ [] data);
          [reflexivity | lia | exact Hlen]).
    repeat run_step. rewrite read_finish.
    subst pre gets id. unfold send_address_events. simpl.
    rewrite <- !app_assoc. simpl. reflexivity. }
  exists (status_of_error
            (fold_left Z.lor (replies hal (trace s ++ pre) gets)
               (fold_left Z.lor (replies hal (trace s) pre) TWI_None))).
  split.
  - rewrite Hrun. subst evs.
    rewrite received_app, received_app, <- app_assoc.
    replace (received hal (trace s) pre) with (@nil Z) by reflexivity.
    replace (received hal ((trace s ++ pre) ++ gets) [Ev_twi_stop])
      with (@nil Z) by reflexivity.
    rewrite app_nil_r. reflexivity.
  - apply status_split. rewrite !fold_lor_none. subst evs.
    rewrite !no_bus_error_app. unfold no_bus_error at 3. simpl replies.
    rewrite all_none_nil. unfold no_bus_error. tauto.
Qed.

Lemma read_sequential_transaction_witness :
  exists st,
    at24cm0x_read_sequential default_config counting_hal 0x100 [0; 0; 0; 0; 9]
      4 bench_state =
    Some ((st, [8; 9; 10; 11; 9]),
          mkState 0x54
            [Ev_twi_start; Ev_twi_address 0x54 0; Ev_twi_set 1; Ev_twi_set 0;
             Ev_twi_stop; Ev_twi_start; Ev_twi_address 0x54 1;
             Ev_twi_get 3; Ev_twi_get 3; Ev_twi_get 3; Ev_twi_get 1;
             Ev_twi_stop])
    /\ (st = AT24CM0X_Status_Done <->
        no_bus_error counting_hal []
          [Ev_twi_start; Ev_twi_address 0x54 0; Ev_twi_set 1; Ev_twi_set 0;
           Ev_twi_stop; Ev_twi_start; Ev_twi_address 0x54 1;
           Ev_twi_get 3; Ev_twi_get 3; Ev_twi_get 3; Ev_twi_get 1;
           Ev_twi_stop])
    /\ (st <> AT24CM0X_Status_Done -> st = AT24CM0X_Status_TWI_Error).
Proof.
  apply (read_sequential_transaction default_config counting_hal 0x100
           [0; 0; 0; 0; 9] 4 bench_state).
  - reflexivity.
  - lia.
  - simpl; lia.
Defined.

(* ------------------------------------------------------------------ *)
(** ** The write transactions of a fixed-delay build *)

Lemma write_finish (error : Z) (s : State) :
  (if negb (error =? TWI_None)
   then ret AT24CM0X_Status_TWI_Error
   else ret AT24CM0X_Status_Done) s
  = Some (status_of_error error, s).
Proof. unfold status_of_error. now destruct (error =? TWI_None). Qed.

(** X5.  Without integrity check and with the fixed delay,
    [at24cm0x_write_byte] at a valid address makes exactly these calls:
    write-protect off (if compiled in), start, the three address bytes,
    the data byte, stop, one wait of [AT24CM0X_WRITE_CYCLE_MS],
    write-protect on (if compiled in).  It returns [Done] when each of
    the four answering calls returned [TWI_None], [TWI_Error] otherwise. *)
Theorem write_byte_transaction_exact (cfg : Config) (hal : Hal) (fuel : nat)
    (a d : Z) (s : State) :
  a < AT24CM0X_MEMORY_SIZE cfg ->
  AT24CM0X_WRITE_ACKNOWLEDGE_POLLING cfg = false ->
  AT24CM0X_ENABLE_INTEGRITY_CHECK cfg = false ->
  let id := at24cm0x_device_identifier s in
  let evs := wp_events cfg AT24CM0X_WP_Mode_Disabled
             ++ [Ev_twi_start] ++ send_address_events cfg hal id a
             ++ [Ev_twi_set d; Ev_twi_stop;
                 Ev_systick_timer_wait_ms (AT24CM0X_WRITE_CYCLE_MS cfg)]
             ++ wp_events cfg AT24CM0X_WP_Mode_Enabled in
  exists st,
    at24cm0x_write_byte cfg hal fuel a d s
    = Some (st, mkState id (trace s ++ evs))
    /\ (st = AT24CM0X_Status_Done <-> no_bus_error hal (trace s) evs)
    /\ (st <> AT24CM0X_Status_Done -> st = AT24CM0X_Status_TWI_Error).
Proof.
  intros Ha Hpoll Hcheck id evs. subst id evs. unfold wp_events.
  destruct (AT24CM0X_WP_CONTROL_EN cfg) eqn:Hwp; eexists; (split;
    [ unfold at24cm0x_write_byte, write_byte_transaction,
        write_completion_wait, when_defined;
      rewrite (geb_false _ _ Ha), Hpoll, Hcheck, Hwp; cbv zeta;
      repeat run_step;
      rewrite write_finish; unfold send_address_events; simpl;
      rewrite <- !app_assoc; simpl; reflexivity
    | apply status_split; rewrite ?lor_none, ?fold_lor_none;
      unfold send_address_events; bus_errors; simpl;
      rewrite <- ?app_assoc; simpl; unfold TWI_None; tauto ]).
Qed.

Lemma write_byte_transaction_exact_witness :
  exists st,
    at24cm0x_write_byte default_config (bench_hal 0 0 0) 0 0 0x7E bench_state
    = Some (st,
            mkState 0x54
              [Ev_twi_start; Ev_twi_address 0x54 0; Ev_twi_set 0;
               Ev_twi_set 0; Ev_twi_set 0x7E; Ev_twi_stop;
               Ev_systick_timer_wait_ms 10])
    /\ (st = AT24CM0X_Status_Done <->
        no_bus_error (bench_hal 0 0 0) []
          [Ev_twi_start; Ev_twi_address 0x54 0; Ev_twi_set 0;
           Ev_twi_set 0; Ev_twi_set 0x7E; Ev_twi_stop;
           Ev_systick_timer_wait_ms 10])
    /\ (st <> AT24CM0X_Status_Done -> st = AT24CM0X_Status_TWI_Error).
Proof.
  apply (write_byte_transaction_exact default_config (bench_hal 0 0 0) 0
           0 0x7E bench_state); reflexivity.
Defined.

Lemma write_loop_exact (hal : Hal) (data : list Z) (n : nat) :
  forall i error s,
  for_loop n i (write_page_body hal data) error s =
  Some (fold_left Z.lor (replies hal (trace s) (set_events data n i)) error,
        mkState (at24cm0x_device_identifier s)
          (trace s ++ set_events data n i)).
Proof.
  induction n as [|n IH]; intros i error s.
  - simpl. unfold ret. now rewrite app_nil_r, state_eta.
  - simpl for_loop.
    rewrite (bind_run (write_page_body hal data i error) _ s _ _ eq_refl).
    rewrite IH. simpl. rewrite <- !app_assoc. reflexivity.
Qed.

Lemma skipn_nth_cons (data : list Z) :
  forall k, (k < length data)%nat ->
  skipn k data = nth k data 0 :: skipn (S k) data.
Proof.
  induction data as [|x data IH]; intros k Hk; simpl in Hk; [lia|].
  destruct k as [|k]; [reflexivity|].
  simpl. apply IH. lia.
Qed.

Lemma set_events_firstn (data : list Z) (n : nat) :
  forall k, (k + n <= length data)%nat ->
  set_events data n (Z.of_nat k)
  = map Ev_twi_set (firstn n (skipn k data)).
Proof.
  induction n as [|n IH]; intros k Hk; [reflexivity|].
  simpl set_events. rewrite Nat2Z.id.
  replace (Z.of_nat k + 1) with (Z.of_nat (S k)) by lia.
  rewrite IH by lia.
  rewrite (skipn_nth_cons data k) by lia. reflexivity.
Qed.

Lemma write_page_transaction_run (cfg : Config) (hal : Hal) (fuel : nat)
    (address : Z) (data : list Z) (n : Z) (s : State) :
  AT24CM0X_WRITE_ACKNOWLEDGE_POLLING cfg = false ->
  let id := at24cm0x_device_identifier s in
  let head := wp_events cfg AT24CM0X_WP_Mode_Disabled
              ++ [Ev_twi_start] ++ send_address_events cfg hal id address in
  let bytes := set_events data (Z.to_nat n) 0 in
  let tail := [Ev_twi_stop;
               Ev_systick_timer_wait_ms (AT24CM0X_WRITE_CYCLE_MS cfg)]
              ++ wp_events cfg AT24CM0X_WP_Mode_Enabled in
  write_page_transaction cfg hal fuel address data n s =
  Some (fold_left Z.lor (replies hal (trace s ++ head) bytes) TWI_None,
        mkState id (trace s ++ head ++ bytes ++ tail)).
Proof.
  intros Hpoll id head bytes tail. subst id head bytes tail.
  unfold wp_events, write_page_transaction, write_completion_wait,
    when_defined.
  rewrite Hpoll. cbv zeta.
  destruct (AT24CM0X_WP_CONTROL_EN cfg);
    repeat run_step;
    erewrite bind_run by apply write_loop_exact;
    repeat run_step;
    unfold ret, send_address_events; simpl;
    rewrite <- !app_assoc; simpl; reflexivity.
Qed.

(** X6.  Without integrity check and with the fixed delay,
    [at24cm0x_write_page] with a valid page and [0 < n < PAGE_SIZE] bytes
    makes exactly these calls: write-protect off (if compiled in), start,
    the three address bytes of [p * PAGE_SIZE], the first [n] bytes of
    the buffer in order, stop, one wait, write-protect on (if compiled
    in).  Its status looks at the data bytes only: [Done] when every
    transmit of a data byte returned [TWI_None], [TWI_Error] otherwise,
    whatever the address phase returned. *)
Theorem write_page_transaction_exact (cfg : Config) (hal : Hal) (fuel : nat)
    (p n : Z) (data : list Z) (s : State) :
  0 <= p < AT24CM0X_PAGES cfg ->
  0 < n < AT24CM0X_PAGE_SIZE cfg ->
  p * AT24CM0X_PAGE_SIZE cfg < 2 ^ 32 ->
  (Z.to_nat n <= length data)%nat ->
  AT24CM0X_WRITE_ACKNOWLEDGE_POLLING cfg = false ->
  AT24CM0X_ENABLE_INTEGRITY_CHECK cfg = false ->
  let id := at24cm0x_device_identifier s in
  let head := wp_events cfg AT24CM0X_WP_Mode_Disabled
              ++ [Ev_twi_start]
              ++ send_address_events cfg hal id (p * AT24CM0X_PAGE_SIZE cfg) in
  let bytes := map Ev_twi_set (firstn (Z.to_nat n) data) in
  let tail := [Ev_twi_stop;
               Ev_systick_timer_wait_ms (AT24CM0X_WRITE_CYCLE_MS cfg)]
              ++ wp_events cfg AT24CM0X_WP_Mode_Enabled in
  exists st,
    at24cm0x_write_page cfg hal fuel p data n s
    = Some (st, mkState id (trace s ++ head ++ bytes ++ tail))
    /\ (st = AT24CM0X_Status_Done <-> no_bus_error hal (trace s ++ head) bytes)
    /\ (st <> AT24CM0X_Status_Done -> st = AT24CM0X_Status_TWI_Error).
Proof.
  intros Hp Hn Hlong Hlen Hpoll Hcheck id head bytes tail.
  subst id head bytes tail.
  assert (Eaddr : to_ulong (p * AT24CM0X_PAGE_SIZE cfg)
                  = p * AT24CM0X_PAGE_SIZE cfg).
  { unfold to_ulong. apply Z.mod_small. nia. }
  assert (Ebytes : set_events data (Z.to_nat n) 0
                   = map Ev_twi_set (firstn (Z.to_nat n) data)).
  { apply (set_events_firstn data (Z.to_nat n) 0%nat). lia. }
  eexists. split.
  - unfold at24cm0x_write_page.
    rewrite (geb_false p _ (proj2 Hp)), (geb_false n _ (proj2 Hn)).
    replace (n =? 0) with false by (symmetry; apply Z.eqb_neq; lia).
    rewrite Eaddr, Hcheck. cbv zeta. cbn [orb]. cbv iota.
    erewrite bind_run by (apply write_page_transaction_run; exact Hpoll).
    repeat run_step. cbv beta iota. unfold ret. rewrite Ebytes. reflexivity.
  - apply status_split. rewrite fold_lor_none, ?Ebytes.
    unfold no_bus_error, TWI_None. tauto.
Qed.

Lemma write_page_transaction_exact_witness :
  exists st,
    at24cm0x_write_page default_config (bench_hal 0 0 0) 0 3
      [0x11; 0x22; 0x33] 3 bench_state
    = Some (st,
            mkState 0x54
              [Ev_twi_start; Ev_twi_address 0x54 0; Ev_twi_set 3;
               Ev_twi_set 0; Ev_twi_set 0x11; Ev_twi_set 0x22;
               Ev_twi_set 0x33; Ev_twi_stop; Ev_systick_timer_wait_ms 10])
    /\ (st = AT24CM0X_Status_Done <->
        no_bus_error (bench_hal 0 0 0)
          [Ev_twi_start; Ev_twi_address 0x54 0; Ev_twi_set 3; Ev_twi_set 0]
          [Ev_twi_set 0x11; Ev_twi_set 0x22; Ev_twi_set 0x33])
    /\ (st <> AT24CM0X_Status_Done -> st = AT24CM0X_Status_TWI_Error).
Proof.
  apply (write_page_transaction_exact default_config (bench_hal 0 0 0) 0
           3 3 [0x11; 0x22; 0x33] bench_state);
    try reflexivity; try (simpl; lia); vm_compute; split; congruence.
Defined.

(* ------------------------------------------------------------------ *)
(** ** Decoding the address phase *)

Lemma land_small_mask (x mask : Z) :
  mask = 1 \/ mask = 3 -> 0 <= x <= mask -> Z.land x mask = x.
Proof.
  intros [-> | ->] Hx.
  - change 1 with (Z.ones 1). rewrite Z.land_ones by lia.
    apply Z.mod_small. change (2 ^ 1) with 2. lia.
  - change 3 with (Z.ones 2). rewrite Z.land_ones by lia.
    apply Z.mod_small. change (2 ^ 2) with 4. lia.
Qed.

(** X7.  The address phase loses nothing: when the stored identifier is
    an [unsigned char] with the bits under the high mask clear, the mask
    is [0x01] or [0x03] as the header defines it, and the address fits the
    bits the mask provides ([a < (mask + 1) * 65536]), the three bytes
    [at24cm0x_send_address] emits decode back to [a], and the
    device-select byte without the mask bits is still the identifier. *)
Theorem address_phase_round_trip (cfg : Config) (hal : Hal) (id a : Z) :
  0 <= id < 256 ->
  AT24CM0X_ADDRESS_HIGH_MASK cfg = 1 \/ AT24CM0X_ADDRESS_HIGH_MASK cfg = 3 ->
  Z.land id (AT24CM0X_ADDRESS_HIGH_MASK cfg) = 0 ->
  0 <= a < (AT24CM0X_ADDRESS_HIGH_MASK cfg + 1) * 65536 ->
  decode_address cfg (send_address_events cfg hal id a) = Some a
  /\ exists high rest,
       send_address_events cfg hal id a
       = Ev_twi_address high (TWI_Write hal) :: rest
       /\ Z.ldiff high (AT24CM0X_ADDRESS_HIGH_MASK cfg) = id.
Proof.
  intros Hid Hmask Hclear Ha.
  set (mask := AT24CM0X_ADDRESS_HIGH_MASK cfg) in *.
  assert (Hm : 0 <= mask < 256) by (destruct Hmask; lia).
  assert (Hhi : 0 <= Z.shiftr a 16 <= mask).
  { rewrite Z.shiftr_div_pow2 by lia. change (2 ^ 16) with 65536.
    split; [apply Z.div_pos; lia|].
    assert (a / 65536 < mask + 1); [|lia].
    apply Z.div_lt_upper_bound; lia. }
  unfold send_address_events, decode_address. fold mask.
  rewrite (high_byte_exact _ _ _ Hid Hm).
  rewrite (land_small_mask _ _ Hmask Hhi).
  split.
  - rewrite Z.land_lor_distr_l, Hclear, Z.lor_0_l.
    rewrite (land_small_mask _ _ Hmask Hhi).
    unfold to_uchar. rewrite !Z.shiftl_mul_pow2, !Z.shiftr_div_pow2 by lia.
    change (2 ^ 16) with 65536. change (2 ^ 8) with 256.
    f_equal. pose proof (Z.div_mod a 256 ltac:(lia)).
    pose proof (Z.div_mod (a / 256) 256 ltac:(lia)).
    replace (a / 65536) with (a / 256 / 256)
      by (rewrite Z.div_div by lia; reflexivity).
    lia.
  - do 2 eexists. split; [reflexivity|].
    rewrite Z.ldiff_land, Z.land_lor_distr_l.
    rewrite <- (land_small_mask _ _ Hmask Hhi) at 1.
    rewrite <- Z.land_assoc, Z.land_lnot_diag, Z.land_0_r, Z.lor_0_r.
    rewrite <- Z.ldiff_land. apply Z.bits_inj'. intros k Hk.
    rewrite Z.ldiff_spec.
    destruct (Z.testbit mask k) eqn:Ek; [|now rewrite andb_true_r].
    simpl. rewrite andb_false_r.
    assert (Hb : Z.testbit (Z.land id mask) k = false)
      by (rewrite Hclear; apply Z.bits_0).
    rewrite Z.land_spec, Ek, andb_true_r in Hb. now rewrite Hb.
Qed.

Lemma address_phase_round_trip_witness :
  decode_address default_config
    (send_address_events default_config (bench_hal 0 0 0) 0x54 0x3A2B3)
  = Some 0x3A2B3
  /\ exists high rest,
       send_address_events default_config (bench_hal 0 0 0) 0x54 0x3A2B3
       = Ev_twi_address high (TWI_Write (bench_hal 0 0 0)) :: rest
       /\ Z.ldiff high (AT24CM0X_ADDRESS_HIGH_MASK default_config) = 0x54.
Proof.
  apply (address_phase_round_trip default_config (bench_hal 0 0 0) 0x54
           0x3A2B3).
  - lia.
  - right; reflexivity.
  - reflexivity.
  - vm_compute; split; [discriminate | reflexivity].
Defined.

(* ------------------------------------------------------------------ *)
(** ** Device selection *)

Lemma land_strap_range (identifier memory_size : Z) :
  0 <= Z.land identifier (header_ADDRESS_MASK memory_size) < 8.
Proof.
  assert (E : Z.land (Z.land identifier (header_ADDRESS_MASK memory_size))
                (Z.ones 3)
              = Z.land identifier (header_ADDRESS_MASK memory_size)).
  { rewrite <- Z.land_assoc. f_equal. unfold header_ADDRESS_MASK.
    now destruct (memory_size <? 262144). }
  rewrite Z.land_ones in E by lia. rewrite <- E.
  apply Z.mod_pos_bound. reflexivity.
Qed.

(** X8.  On a header-configured build [at24cm0x_device] calls nothing and
    stores [0x50 + (identifier & ADDRESS_MASK)]: the bits of the
    identifier outside the strap mask are dropped, and the stored value
    is a 7-bit address of the chip family, from [0x50] to [0x57]. *)
Theorem device_select_keeps_strap_bits
    (memory_size pages page_size a2 a1 cycle_ms : Z)
    (integrity polling multi wp : bool) (identifier : Z) (s : State) :
  let cfg := header_config memory_size pages page_size a2 a1 cycle_ms
               integrity polling multi wp in
  let stored := 0x50 + Z.land identifier (AT24CM0X_ADDRESS_MASK cfg) in
  at24cm0x_device cfg identifier s = Some (tt, mkState stored (trace s))
  /\ 0x50 <= stored < 0x58.
Proof.
  intros cfg stored. subst cfg stored.
  cbn [AT24CM0X_ADDRESS_MASK header_config].
  pose proof (land_strap_range identifier memory_size) as Hr.
  split; [|lia].
  unfold at24cm0x_device, write_device_identifier.
  cbn [AT24CM0X_ADDRESS_MASK AT24CM0X_BASE_ADDRESS header_config].
  do 3 f_equal.
  assert (Hd : Z.land 0x50
                 (Z.land identifier (header_ADDRESS_MASK memory_size)) = 0).
  { rewrite (Z.land_comm identifier), Z.land_assoc.
    unfold header_ADDRESS_MASK.
    now destruct (memory_size <? 262144). }
  rewrite <- (Z.lxor_lor _ _ Hd), <- (Z.add_nocarry_lxor _ _ Hd).
  unfold to_uchar. apply Z.mod_small. change (2 ^ 8) with 256. lia.
Qed.

(* ------------------------------------------------------------------ *)
(** ** A chip that never answers *)

Lemma bind_none {A B : Type} (m : M A) (f : A -> M B) (s : State) :
  m s = None -> bind m f s = None.
Proof. intros H. unfold bind. now rewrite H. Qed.

Lemma polling_rounds_last (hal : Hal) (id : Z) (k : nat) :
  exists h,
    polling_rounds hal id (S k) = h ++ [Ev_twi_address id (TWI_Write hal)].
Proof.
  induction k as [|k [h IH]].
  - exists [Ev_twi_start]. reflexivity.
  - exists (Ev_twi_start :: Ev_twi_address id (TWI_Write hal) :: h).
    change (polling_rounds hal id (S (S k)))
      with (Ev_twi_start :: Ev_twi_address id (TWI_Write hal)
            :: polling_rounds hal id (S k)).
    now rewrite IH.
Qed.

Lemma polling_never_returns (hal : Hal) (fuel : nat) (s : State) :
  (forall h address operation,
     twi_reply hal (h ++ [Ev_twi_address address operation]) = TWI_Ack hal) ->
  at24cm0x_write_acknowledge_polling hal fuel s = None.
Proof.
  intros Hdead. apply acknowledge_polling_keeps_polling. intros j _.
  destruct (polling_rounds_last hal (at24cm0x_device_identifier s) j)
    as [h ->].
  rewrite app_assoc. apply Hdead.
Qed.

(** X9.  With acknowledge polling compiled in, on a bus where every
    address call is answered [TWI_Ack] (no chip acknowledges),
    [at24cm0x_write_byte] and [at24cm0x_write_page] with valid arguments
    do not return, however much fuel the polling loop is given.  (The
    call that re-asserts write protection comes after the loop.) *)
Theorem write_hangs_without_acknowledge (cfg : Config) (hal : Hal)
    (fuel : nat) (a d p n : Z) (data : list Z) (s : State) :
  AT24CM0X_WRITE_ACKNOWLEDGE_POLLING cfg = true ->
  (forall h address operation,
     twi_reply hal (h ++ [Ev_twi_address address operation]) = TWI_Ack hal) ->
  a < AT24CM0X_MEMORY_SIZE cfg ->
  p < AT24CM0X_PAGES cfg ->
  0 < n < AT24CM0X_PAGE_SIZE cfg ->
  at24cm0x_write_byte cfg hal fuel a d s = None
  /\ at24cm0x_write_page cfg hal fuel p data n s = None.
Proof.
  intros Hpoll Hdead Ha Hp Hn. split.
  - unfold at24cm0x_write_byte. rewrite (geb_false _ _ Ha).
    apply bind_none.
    unfold write_byte_transaction, write_completion_wait, when_defined.
    rewrite Hpoll. cbv zeta.
    destruct (AT24CM0X_WP_CONTROL_EN cfg); repeat run_step;
      apply bind_none, polling_never_returns, Hdead.
  - unfold at24cm0x_write_page.
    rewrite (geb_false p _ Hp), (geb_false n _ (proj2 Hn)).
    replace (n =? 0) with false by (symmetry; apply Z.eqb_neq; lia).
    cbn [orb]. cbv zeta iota. apply bind_none.
    unfold write_page_transaction, write_completion_wait, when_defined.
    rewrite Hpoll. cbv zeta.
    destruct (AT24CM0X_WP_CONTROL_EN cfg); repeat run_step;
      erewrite bind_run by apply write_loop_exact;
      repeat run_step;
      apply bind_none, polling_never_returns, Hdead.
Qed.

Lemma write_hangs_without_acknowledge_witness :
  at24cm0x_write_byte polling_config dead_hal 50 0 0x7E bench_state = None
  /\ at24cm0x_write_page polling_config dead_hal 50 0 [0x11] 1 bench_state
     = None.
Proof.
  apply (write_hangs_without_acknowledge polling_config dead_hal 50
           0 0x7E 0 1 [0x11] bench_state);
    try reflexivity.
  split; reflexivity.
Defined.

(* ------------------------------------------------------------------ *)
(** ** What [Done] means with the integrity check *)

(** X10.  With the integrity check compiled in, [at24cm0x_write_byte]
    returns [Done] only if its write transaction accumulated no bus error
    and the read-back at the same address returned [Done] with exactly
    the byte that was written. *)
Theorem write_byte_done_is_verified (cfg : Config) (hal : Hal) (fuel : nat)
    (a d : Z) (s s' : State) :
  AT24CM0X_ENABLE_INTEGRITY_CHECK cfg = true ->
  a < AT24CM0X_MEMORY_SIZE cfg ->
  at24cm0x_write_byte cfg hal fuel a d s = Some (AT24CM0X_Status_Done, s') ->
  exists s1,
    write_byte_transaction cfg hal fuel a d s = Some (TWI_None, s1)
    /\ at24cm0x_read_byte cfg hal a 0 s1
       = Some ((AT24CM0X_Status_Done, d), s').
Proof.
  intros Hcheck Ha H. unfold at24cm0x_write_byte in H.
  rewrite (geb_false _ _ Ha), Hcheck in H.
  apply bind_Some_inv in H as (error & s1 & Htx & H).
  destruct (error =? TWI_None) eqn:Eerr; simpl in H;
    [|injection H as H _; discriminate].
  apply Z.eqb_eq in Eerr. subst error.
  unfold write_byte_verify in H. cbv zeta in H.
  apply bind_Some_inv in H as ([rst temp] & s2 & Hrb & H).
  destruct (status_is_done rst) eqn:Edone; simpl in H;
    [|injection H as H _; discriminate].
  apply status_is_done_true in Edone. subst rst.
  destruct (d =? temp) eqn:Ed; simpl in H;
    [|injection H as H _; discriminate].
  apply Z.eqb_eq in Ed. subst temp. injection H as <-.
  exists s1. auto.
Qed.

Lemma write_byte_done_is_verified_witness :
  exists s1,
    write_byte_transaction integrity_config (bench_hal 0 0 0x11) 0 0 0x11
      bench_state = Some (TWI_None, s1)
    /\ at24cm0x_read_byte integrity_config (bench_hal 0 0 0x11) 0 0 s1
       = Some ((AT24CM0X_Status_Done, 0x11),
               mkState 0x54
                 [Ev_twi_start; Ev_twi_address 0x54 0; Ev_twi_set 0;
                  Ev_twi_set 0; Ev_twi_set 0x11; Ev_twi_stop;
                  Ev_systick_timer_wait_ms 10; Ev_twi_start;
                  Ev_twi_address 0x54 0; Ev_twi_set 0; Ev_twi_set 0;
                  Ev_twi_stop; Ev_twi_start; Ev_twi_address 0x54 1;
                  Ev_twi_get 1; Ev_twi_stop]).
Proof.
  apply (write_byte_done_is_verified integrity_config (bench_hal 0 0 0x11) 0
           0 0x11 bench_state);
    reflexivity.
Defined.

Lemma page_mismatch_false (buffer data : list Z) (n : nat) :
  forall i,
  0 <= i ->
  page_mismatch n i buffer data = false ->
  forall j, i <= j < i + Z.of_nat n ->
  nth (Z.to_nat j) buffer 0 = nth (Z.to_nat j) data 0.
Proof.
  induction n as [|n IH]; intros i Hi H j Hj; [lia|].
  simpl in H.
  destruct (nth (Z.to_nat i) buffer 0 =? nth (Z.to_nat i) data 0) eqn:E;
    simpl in H; [|discriminate].
  destruct (Z.eq_dec j i) as [-> | Hne].
  - now apply Z.eqb_eq.
  - apply (IH (i + 1)); [lia | exact H | lia].
Qed.

(** X11.  With the integrity check compiled in, [at24cm0x_write_page]
    returns [Done] only if the data bytes were transmitted without bus
    error and the sequential read-back of [n] bytes at the page address
    returned [Done] with a buffer that agrees with the caller's data on
    each of the [n] bytes. *)
Theorem write_page_done_is_verified (cfg : Config) (hal : Hal) (fuel : nat)
    (p n : Z) (data : list Z) (s s' : State) :
  AT24CM0X_ENABLE_INTEGRITY_CHECK cfg = true ->
  p < AT24CM0X_PAGES cfg ->
  0 < n < AT24CM0X_PAGE_SIZE cfg ->
  at24cm0x_write_page cfg hal fuel p data n s
  = Some (AT24CM0X_Status_Done, s') ->
  let address := to_ulong (p * AT24CM0X_PAGE_SIZE cfg) in
  exists s1 buffer,
    write_page_transaction cfg hal fuel address data n s = Some (TWI_None, s1)
    /\ at24cm0x_read_sequential cfg hal address
         (repeat 0 (Z.to_nat (AT24CM0X_PAGE_SIZE cfg))) n s1
       = Some ((AT24CM0X_Status_Done, buffer), s')
    /\ forall j, 0 <= j < n ->
         nth (Z.to_nat j) buffer 0 = nth (Z.to_nat j) data 0.
Proof.
  intros Hcheck Hp Hn H address. subst address.
  unfold at24cm0x_write_page in H.
  rewrite (geb_false p _ Hp), (geb_false n _ (proj2 Hn)), Hcheck in H.
  replace (n =? 0) with false in H by (symmetry; apply Z.eqb_neq; lia).
  cbn [orb] in H. cbv zeta iota in H.
  apply bind_Some_inv in H as (error & s1 & Htx & H).
  apply bind_Some_inv in H as (early & s2 & Hv & H).
  unfold write_page_verify in Hv. cbv zeta in Hv.
  apply bind_Some_inv in Hv as ([rst buffer] & s3 & Hrs & Hv).
  destruct (status_is_done rst) eqn:Edone; simpl in Hv;
    [|injection Hv as <- <-; injection H as H _; discriminate].
  apply status_is_done_true in Edone. subst rst.
  destruct (page_mismatch (Z.to_nat n) 0 buffer data) eqn:Em;
    [injection Hv as <- <-; injection H as H _; discriminate|].
  injection Hv as <- <-. injection H as Hst <-.
  apply status_of_error_done in Hst. subst error.
  exists s1, buffer. repeat split; auto.
  intros j Hj. apply (page_mismatch_false buffer data (Z.to_nat n) 0);
    [lia | exact Em | lia].
Qed.

Lemma write_page_done_is_verified_witness :
  exists s1 buffer,
    write_page_transaction integrity_config counting_hal 0 0x300 [16; 17] 2
      bench_state = Some (TWI_None, s1)
    /\ at24cm0x_read_sequential integrity_config counting_hal 0x300
         (repeat 0 (Z.to_nat (AT24CM0X_PAGE_SIZE integrity_config))) 2 s1
       = Some ((AT24CM0X_Status_Done, buffer),
               mkState 0x54
                 [Ev_twi_start; Ev_twi_address 0x54 0; Ev_twi_set 3;
                  Ev_twi_set 0; Ev_twi_set 16; Ev_twi_set 17; Ev_twi_stop;
                  Ev_systick_timer_wait_ms 10; Ev_twi_start;
                  Ev_twi_address 0x54 0; Ev_twi_set 3; Ev_twi_set 0;
                  Ev_twi_stop; Ev_twi_start; Ev_twi_address 0x54 1;
                  Ev_twi_get 3; Ev_twi_get 1; Ev_twi_stop])
    /\ forall j, 0 <= j < 2 ->
         nth (Z.to_nat j) buffer 0 = nth (Z.to_nat j) [16; 17] 0.
Proof.
  apply (write_page_done_is_verified integrity_config counting_hal 0
           3 2 [16; 17] bench_state);
    try reflexivity.
  split; reflexivity.
Defined.

(* ------------------------------------------------------------------ *)
(** ** Reading and the write-protect pin *)

Lemma emits_only_keeps_pin {A : Type} (m : M A) :
  emits_only not_wp m ->
  forall level s r s',
    m s = Some (r, s') ->
    wp_pin level (trace s') = wp_pin level (trace s).
Proof.
  intros Hm level s r s' H. apply Hm in H as (evs & -> & F). simpl.
  rewrite wp_pin_app. now apply wp_pin_not_wp.
Qed.

(** X12.  The read operations never call [at24cm0x_wp]: whatever
    [at24cm0x_read_current_byte], [at24cm0x_read_byte] or
    [at24cm0x_read_sequential] return, the write-protect pin is at the
    level it had before the call. *)
Theorem reads_leave_write_protect_alone (cfg : Config) (hal : Hal)
    (level : AT24CM0X_WP_Mode) (a d n : Z) (data : list Z) (s : State) :
  (forall r s',
     at24cm0x_read_current_byte hal d s = Some (r, s') ->
     wp_pin level (trace s') = wp_pin level (trace s))
  /\ (forall r s',
        at24cm0x_read_byte cfg hal a d s = Some (r, s') ->
        wp_pin level (trace s') = wp_pin level (trace s))
  /\ (forall r s',
        at24cm0x_read_sequential cfg hal a data n s = Some (r, s') ->
        wp_pin level (trace s') = wp_pin level (trace s)).
Proof.
  repeat split; intros r s' H;
    refine (emits_only_keeps_pin _ _ level s r s' H).
  - apply emits_only_read_current_byte, not_wp_any.
  - apply emits_only_read_byte, not_wp_any.
  - apply emits_only_read_sequential, not_wp_any.
Qed.

Lemma reads_leave_write_protect_alone_witness :
  exists r s',
    at24cm0x_read_byte wp_config (bench_hal 0 0 0xA5) 0x100 0
      (mkState 0x54 [Ev_at24cm0x_wp AT24CM0X_WP_Mode_Enabled]) = Some (r, s')
    /\ wp_pin AT24CM0X_WP_Mode_Disabled (trace s')
       = AT24CM0X_WP_Mode_Enabled.
Proof.
  do 2 eexists. split; [vm_compute; reflexivity|].
  refine (proj1 (proj2 (reads_leave_write_protect_alone wp_config
                          (bench_hal 0 0 0xA5) AT24CM0X_WP_Mode_Disabled
                          0x100 0 1 []
                          (mkState 0x54
                             [Ev_at24cm0x_wp AT24CM0X_WP_Mode_Enabled])))
            _ _ _).
  vm_compute; reflexivity.
Defined.

(* ------------------------------------------------------------------ *)
(** ** Initialisation *)

(** X13.  On a header-configured build with the strap pins given as 0 or
    1, [at24cm0x_init] makes no bus call and no wait; it calls
    [at24cm0x_wp(Enabled)] exactly when write-protect control is compiled
    in; and it stores [0x50] in a multi-device build, otherwise [0x50]
    plus [4 * A2], plus [2 * A1] when the memory is below 2 Mbit. *)
Theorem init_establishes_address
    (memory_size pages page_size a2 a1 cycle_ms : Z)
    (integrity polling multi wp : bool) (s : State) :
  0 <= a2 <= 1 ->
  0 <= a1 <= 1 ->
  let cfg := header_config memory_size pages page_size a2 a1 cycle_ms
               integrity polling multi wp in
  let stored :=
    if multi then 0x50
    else if memory_size <? 262144 then 0x50 + 4 * a2 + 2 * a1
    else 0x50 + 4 * a2 in
  at24cm0x_init cfg s
  = Some (tt, mkState stored
                (trace s ++ wp_events cfg AT24CM0X_WP_Mode_Enabled)).
Proof.
  intros H2 H1 cfg stored. subst cfg stored.
  assert (E2 : a2 = 0 \/ a2 = 1) by lia.
  assert (E1 : a1 = 0 \/ a1 = 1) by lia.
  unfold at24cm0x_init, wp_events, when_defined, header_config,
    header_ADDRESS, bind, at24cm0x_wp, emit, write_device_identifier, ret.
  cbn [AT24CM0X_WP_CONTROL_EN AT24CM0X_MULTI_DEVICES AT24CM0X_BASE_ADDRESS
       AT24CM0X_ADDRESS].
  destruct wp, multi, (memory_size <? 262144), E2 as [-> | ->],
    E1 as [-> | ->];
    cbn [trace at24cm0x_device_identifier]; rewrite ?app_nil_r;
    reflexivity.
Qed.

Lemma init_establishes_address_witness :
  at24cm0x_init wp_config (mkState 0 [])
  = Some (tt, mkState 0x54 [Ev_at24cm0x_wp AT24CM0X_WP_Mode_Enabled]).
Proof.
  apply (init_establishes_address 262144 1024 256 1 1 10 true false false
           true (mkState 0 [])); lia.
Defined.
